(** * Books API: a shallow embedding of [main.py] and [init_db.py]

    The REST handlers of [main.py] are embedded as functions over an explicit
    table of [BookDB] rows.  The Pydantic models [Book] and [BookUpdate] are
    embedded with their [Field] constraints, the handlers with the store
    calls they make, and the FastAPI routing (dependency, body validation,
    handler, response model) as the dispatcher [app]. *)

From stdpp Require Import gmap list strings pretty.
From Stdlib Require Import ZArith NArith Lia.

Local Open Scope Z_scope.

(* ===================================================================== *)
(** ** Python [str]: sequences of Unicode code points *)
(* ===================================================================== *)

(** A Python [str] is a sequence of code points; [len] counts code points,
    which is what [min_length] and [max_length] measure. *)
Abbreviation str := (list N).

(** Literals are written as Rocq strings (UTF-8 bytes) and decoded.
    [utf8 acc k bs]: [k] continuation bytes are still expected for the code
    point whose high bits are [acc]. *)
Fixpoint utf8 (acc : N) (k : nat) (bs : list N) : str :=
  match bs with
  | [] => []
  | b :: bs' =>
      match k with
      | O =>
          if (b <? 128)%N then b :: utf8 0 0 bs'
          else if (b <? 224)%N then utf8 (b - 192) 1 bs'
          else if (b <? 240)%N then utf8 (b - 224) 2 bs'
          else utf8 (b - 240) 3 bs'
      | S O => (acc * 64 + (b - 128))%N :: utf8 0 0 bs'
      | S k' => utf8 (acc * 64 + (b - 128)) k' bs'
      end
  end.

Definition py (s : string) : str :=
  utf8 0 0 (map Ascii.N_of_ascii (String.list_ascii_of_string s)).

(** Truthiness of an optional value, as in [if author:] and [if year_from:]. *)
Definition truthy_str (x : option str) : bool :=
  match x with
  | Some (_ :: _) => true
  | _ => false
  end.

Definition truthy_int (x : option Z) : bool :=
  match x with
  | Some n => negb (n =? 0)
  | None => false
  end.

(** [str(n)] for an integer, as an f-string renders it. *)
Definition str_of_int (n : Z) : str :=
  map Ascii.N_of_ascii (String.list_ascii_of_string (pretty n)).

(* ===================================================================== *)
(** ** The store's [ILIKE] *)
(* ===================================================================== *)

(** Modelled from the spec: the case folding behind the store's
    case-insensitive match ([database.py] and the engine it configures are
    not part of the sources).  Basic Latin and Cyrillic capitals are folded
    to their small letters; every other code point is left as it is. *)
Definition lower (c : N) : N :=
  if ((65 <=? c) && (c <=? 90))%N then (c + 32)%N
  else if ((1040 <=? c) && (c <=? 1071))%N then (c + 32)%N
  else if ((1024 <=? c) && (c <=? 1039))%N then (c + 80)%N
  else c.

(** A [LIKE] pattern: [%] matches any run of characters, [_] exactly one. *)
Inductive pat : Type :=
  | PAny
  | POne
  | PLit (c : N).

Definition pat_of_char (c : N) : pat :=
  if (c =? 37)%N then PAny else if (c =? 95)%N then POne else PLit c.

Definition like_pattern (s : str) : list pat := map pat_of_char s.

Fixpoint like (p : list pat) (s : str) {struct p} : bool :=
  match p with
  | [] => match s with [] => true | _ :: _ => false end
  | PAny :: p' =>
      (fix any (s : str) : bool :=
         like p' s || match s with [] => false | _ :: s' => any s' end) s
  | POne :: p' => match s with [] => false | _ :: s' => like p' s' end
  | PLit c :: p' =>
      match s with
      | [] => false
      | d :: s' => (lower c =? lower d)%N && like p' s'
      end
  end.

(** [column.ilike(pattern)]: a NULL column matches nothing. *)
Definition ilike (column : option str) (pattern : str) : bool :=
  match column with
  | Some s => like (like_pattern pattern) s
  | None => false
  end.

(** [column >= v] and [column <= v] in a filter: NULL compares to nothing. *)
Definition sql_ge (column : option Z) (v : Z) : bool :=
  match column with Some y => v <=? y | None => false end.

Definition sql_le (column : option Z) (v : Z) : bool :=
  match column with Some y => y <=? v | None => false end.

(** What "contains as a case-insensitive substring" means. *)
Definition icontains (needle hay : str) : Prop :=
  ∃ pre post, map lower hay = pre ++ map lower needle ++ post.

Definition wildcard_free (s : str) : Prop :=
  Forall (λ c, c ≠ 37%N ∧ c ≠ 95%N) s.

(* ===================================================================== *)
(** ** Pydantic models *)
(* ===================================================================== *)

(** A key of a JSON request body: left out, [null], or a value. *)
Inductive field (A : Type) : Type :=
  | Unset
  | Null
  | Value (a : A).
Arguments Unset {A}.
Arguments Null {A}.
Arguments Value {A} a.

(** The body of POST, PUT and PATCH, read as JSON.  Every key other than the
    five below is ignored by both models. *)
Module Body.
Record t : Type := mk {
  id : field Z;
  title : field str;
  author : field str;
  year : field Z;
  isbn : field str
}.
End Body.

(** Process-wide configuration: the shared secret of the auth check, and
    [datetime.now().year] as evaluated once, when the model classes are
    created at import. *)
Record config : Type := {
  API_KEY : str;
  year_le : Z
}.

Inductive field_name : Type := F_title | F_author | F_year | F_isbn.

Inductive constraint : Type :=
  | missing
  | string_type
  | int_type
  | string_too_short (min_length : nat)
  | string_too_long (max_length : nat)
  | greater_than_equal (ge : Z)
  | less_than_equal (le : Z).

Inductive error : Type :=
  | AuthError
  | ValidationError (errors : list (field_name * constraint))
  | NotFound (book_id : Z)
  | ServerError.

Inductive outcome (A : Type) : Type :=
  | Ok (a : A)
  | Raise (e : error).
Arguments Ok {A} a.
Arguments Raise {A} e.

(** The verdict on one field of a body. *)
Inductive checked (A : Type) : Type :=
  | Valid (a : A)
  | Invalid (c : constraint).
Arguments Valid {A} a.
Arguments Invalid {A} c.

Definition errors_of {A} (f : field_name) (v : checked A)
  : list (field_name * constraint) :=
  match v with
  | Valid _ => []
  | Invalid c => [(f, c)]
  end.

(** [Field(min_length=lo, max_length=hi)] on a [str]. *)
Definition check_len (lo hi : nat) (s : str) : checked str :=
  if (length s <? lo)%nat then Invalid (string_too_short lo)
  else if (hi <? length s)%nat then Invalid (string_too_long hi)
  else Valid s.

(** [Field(ge=lo, le=hi)] on an [int]. *)
Definition check_range (lo hi : Z) (n : Z) : checked Z :=
  if n <? lo then Invalid (greater_than_equal lo)
  else if hi <? n then Invalid (less_than_equal hi)
  else Valid n.

(** [x: T = Field(..., constraints)]: a required field. *)
Definition required {A} (type_error : constraint) (check : A → checked A)
    (x : field A) : checked A :=
  match x with
  | Unset => Invalid missing
  | Null => Invalid type_error
  | Value a => check a
  end.

(** [x: Optional[T] = Field(None, constraints)]: the constraints apply to a
    value only; [null] and a missing key both give [None]. *)
Definition optional {A} (check : A → checked A) (x : field A)
  : checked (option A) :=
  match x with
  | Unset | Null => Valid None
  | Value a =>
      match check a with
      | Valid a' => Valid (Some a')
      | Invalid c => Invalid c
      end
  end.

Module Book.
Record t : Type := mk {
  id : option Z;
  title : str;
  author : str;
  year : Z;
  isbn : option str
}.
End Book.

(** The fields a [BookUpdate] was given, with the value of each:
    [None] for a key that was left out, [Some None] for an explicit [null].
    [model_fields_set] is the set of fields that are [Some _]. *)
Module BookUpdate.
Record t : Type := mk {
  title : option (option str);
  author : option (option str);
  year : option (option Z);
  isbn : option (option str)
}.
End BookUpdate.

Definition validate_Book (cfg : config) (body : Body.t) : outcome Book.t :=
  let id := match Body.id body with Value n => Some n | _ => None end in
  let title := required string_type (check_len 1 200) (Body.title body) in
  let author := required string_type (check_len 1 100) (Body.author body) in
  let year := required int_type (check_range 1000 (year_le cfg)) (Body.year body) in
  let isbn := optional (check_len 10 13) (Body.isbn body) in
  match title, author, year, isbn with
  | Valid t, Valid a, Valid y, Valid i => Ok (Book.mk id t a y i)
  | _, _, _, _ =>
      Raise (ValidationError
               (errors_of F_title title ++ errors_of F_author author
                ++ errors_of F_year year ++ errors_of F_isbn isbn))
  end.

(** A field of [BookUpdate] remembers whether its key was present. *)
Definition given {A} (x : field A) (v : checked (option A))
  : checked (option (option A)) :=
  match x, v with
  | Unset, _ => Valid None
  | _, Valid a => Valid (Some a)
  | _, Invalid c => Invalid c
  end.

Definition validate_BookUpdate (cfg : config) (body : Body.t)
  : outcome BookUpdate.t :=
  let title := given (Body.title body) (optional (check_len 1 200) (Body.title body)) in
  let author := given (Body.author body) (optional (check_len 1 100) (Body.author body)) in
  let year :=
    given (Body.year body)
      (optional (check_range 1000 (year_le cfg)) (Body.year body)) in
  let isbn := given (Body.isbn body) (optional (check_len 10 13) (Body.isbn body)) in
  match title, author, year, isbn with
  | Valid t, Valid a, Valid y, Valid i => Ok (BookUpdate.mk t a y i)
  | _, _, _, _ =>
      Raise (ValidationError
               (errors_of F_title title ++ errors_of F_author author
                ++ errors_of F_year year ++ errors_of F_isbn isbn))
  end.

(** One entry of the dict that [model_dump] returns, ready for [setattr]. *)
Inductive assignment : Type :=
  | set_title (v : option str)
  | set_author (v : option str)
  | set_year (v : option Z)
  | set_isbn (v : option str).

(** [book.model_dump(exclude={"id"})]: every field but [id], in field order. *)
Definition model_dump_exclude_id (b : Book.t) : list assignment :=
  [ set_title (Some (Book.title b)); set_author (Some (Book.author b));
    set_year (Some (Book.year b)); set_isbn (Book.isbn b) ].

(** [book_update.model_dump(exclude_unset=True)]: the given fields only. *)
Definition model_dump_exclude_unset (u : BookUpdate.t) : list assignment :=
  from_option (λ v, [set_title v]) [] (BookUpdate.title u)
  ++ from_option (λ v, [set_author v]) [] (BookUpdate.author u)
  ++ from_option (λ v, [set_year v]) [] (BookUpdate.year u)
  ++ from_option (λ v, [set_isbn v]) [] (BookUpdate.isbn u).

(* ===================================================================== *)
(** ** The store *)
(* ===================================================================== *)

(** Modelled from the spec: the ORM class [BookDB] of [database.py] (not in
    the sources): one row of the single table, with the five [Book] fields.
    [id] is the primary key, set by the store.  The other columns take NULL:
    the spec has the field constraints enforced at the boundary, not by the
    store. *)
Module BookDB.
Record t : Type := mk {
  id : Z;
  title : option str;
  author : option str;
  year : option Z;
  isbn : option str
}.
End BookDB.

(** [setattr(book, field, value)] for one entry of a dumped model. *)
Definition setattr (book : BookDB.t) (a : assignment) : BookDB.t :=
  match a with
  | set_title v =>
      BookDB.mk (BookDB.id book) v (BookDB.author book) (BookDB.year book)
        (BookDB.isbn book)
  | set_author v =>
      BookDB.mk (BookDB.id book) (BookDB.title book) v (BookDB.year book)
        (BookDB.isbn book)
  | set_year v =>
      BookDB.mk (BookDB.id book) (BookDB.title book) (BookDB.author book) v
        (BookDB.isbn book)
  | set_isbn v =>
      BookDB.mk (BookDB.id book) (BookDB.title book) (BookDB.author book)
        (BookDB.year book) v
  end.

(** Modelled from the spec: the session [db] that [get_db] of [database.py]
    (not in the sources) hands to a handler.  The table is the list of its
    rows in the store's own order; [next_id] is the id the store gives to
    the next row it inserts. *)
Record Session : Type := {
  books : list BookDB.t;
  next_id : Z
}.

(** [db.query(BookDB).filter(BookDB.id == book_id).first()] *)
Definition first_by_id (book_id : Z) (db : Session) : option BookDB.t :=
  List.find (λ b, BookDB.id b =? book_id) (books db).

(** [db.refresh(book)]: the row of [book]'s primary key, read again. *)
Definition refresh (book : BookDB.t) (db : Session) : BookDB.t :=
  default book (first_by_id (BookDB.id book) db).

(** [db.add] of a [BookDB] built from keyword arguments, and the flush of
    it: a new row whose id the store chooses, the keyword arguments set on
    it, last in the table. *)
Definition add (kwargs : list assignment) (db : Session) : BookDB.t * Session :=
  let db_book := foldl setattr (BookDB.mk (next_id db) None None None None) kwargs in
  (db_book, {| books := books db ++ [db_book]; next_id := next_id db + 1 |}).

(** [db.commit()] after attributes of the loaded [book] were set: the row
    of that primary key is written. *)
Definition commit_update (book : BookDB.t) (db : Session) : Session :=
  {| books := map (λ b, if BookDB.id b =? BookDB.id book then book else b) (books db);
     next_id := next_id db |}.

(** [db.delete(book); db.commit()]: the row of that primary key is removed. *)
Definition delete (book : BookDB.t) (db : Session) : Session :=
  {| books := List.filter (λ b, negb (BookDB.id b =? BookDB.id book)) (books db);
     next_id := next_id db |}.

(** The primary key: ids are unique, and none reached [next_id] yet. *)
Definition wf (db : Session) : Prop :=
  NoDup (map BookDB.id (books db))
  ∧ Forall (λ b, BookDB.id b < next_id db) (books db).

Definition empty_db : Session := {| books := []; next_id := 1 |}.

(* ===================================================================== *)
(** ** The handlers of [main.py] *)
(* ===================================================================== *)

(** [get_books]: the three filters apply when their argument is truthy, then
    [offset(skip).limit(limit)].  [skip] and [limit] are taken from the
    domain the interface documents (not negative). *)
Definition get_books (skip limit : nat) (author : option str)
    (year_from year_to : option Z) (db : Session) : list BookDB.t :=
  let query := books db in
  let query :=
    if truthy_str author
    then List.filter
           (λ b, ilike (BookDB.author b) (py "%" ++ default [] author ++ py "%"))
           query
    else query in
  let query :=
    if truthy_int year_from
    then List.filter (λ b, sql_ge (BookDB.year b) (default 0 year_from)) query
    else query in
  let query :=
    if truthy_int year_to
    then List.filter (λ b, sql_le (BookDB.year b) (default 0 year_to)) query
    else query in
  take limit (drop skip query).

Definition get_book (book_id : Z) (db : Session) : outcome BookDB.t :=
  match first_by_id book_id db with
  | Some book => Ok book
  | None => Raise (NotFound book_id)
  end.

Definition create_book (book : Book.t) (db : Session)
  : outcome BookDB.t * Session :=
  let '(db_book, db) := add (model_dump_exclude_id book) db in
  (Ok (refresh db_book db), db).

Definition update_book (book_id : Z) (updated_book : Book.t) (db : Session)
  : outcome BookDB.t * Session :=
  match first_by_id book_id db with
  | None => (Raise (NotFound book_id), db)
  | Some book =>
      let book := foldl setattr book (model_dump_exclude_id updated_book) in
      let db := commit_update book db in
      (Ok (refresh book db), db)
  end.

Definition partial_update_book (book_id : Z) (book_update : BookUpdate.t)
    (db : Session) : outcome BookDB.t * Session :=
  match first_by_id book_id db with
  | None => (Raise (NotFound book_id), db)
  | Some book =>
      let update_data := model_dump_exclude_unset book_update in
      let book := foldl setattr book update_data in
      let db := commit_update book db in
      (Ok (refresh book db), db)
  end.

Definition delete_book (book_id : Z) (db : Session) : outcome () * Session :=
  match first_by_id book_id db with
  | None => (Raise (NotFound book_id), db)
  | Some book => (Ok (), delete book db)
  end.

(** [c[x] = c.get(x, 0) + 1]: one more occurrence of [x]. *)
Definition count_one `{Countable K} (c : gmap K nat) (x : K) : gmap K nat :=
  <[x := S (default 0%nat (c !! x))]> c.

(** [collections.Counter(xs)]: each element raises its own count by one. *)
Definition Counter `{Countable K} (xs : list K) : gmap K nat :=
  foldl count_one ∅ xs.

(** [book.year // 100 + 1] *)
Definition century (year : Z) : Z := year / 100 + 1.

(** The key of a century in the response: the number, a space, the unit. *)
Definition century_label (century : Z) : str :=
  str_of_int century ++ py " век".

Record statistics : Type := {
  total_books : nat;
  books_by_author : gmap (option str) nat;
  books_by_century : gmap str nat
}.

(** [get_statistics].  The floor division fails on a NULL year, which is
    an unhandled exception of the handler. *)
Definition get_statistics (db : Session) : outcome statistics :=
  let books := books db in
  let total_books := length books in
  let authors := Counter (map BookDB.author books) in
  match mapM (λ book, century <$> BookDB.year book) books with
  | None => Raise ServerError
  | Some cs =>
      let centuries := Counter cs in
      Ok {| total_books := total_books;
            books_by_author := authors;
            books_by_century :=
              map_fold (λ century count d, <[century_label century := count]> d)
                ∅ centuries |}
  end.

(** The sum of the counts of a mapping. *)
Definition sum_values `{Countable K} (m : gmap K nat) : nat :=
  map_fold (λ _ n acc, (n + acc)%nat) 0%nat m.

(* ===================================================================== *)
(** ** [init_db.py] *)
(* ===================================================================== *)

Definition initial_books : list (list assignment) :=
  [ [ set_title (Some (py "Война и мир")); set_author (Some (py "Лев Толстой"));
      set_year (Some 1869); set_isbn (Some (py "9785170987654")) ];
    [ set_title (Some (py "Преступление и наказание"));
      set_author (Some (py "Федор Достоевский"));
      set_year (Some 1866); set_isbn (Some (py "9785170876543")) ];
    [ set_title (Some (py "Евгений Онегин"));
      set_author (Some (py "Александр Пушкин"));
      set_year (Some 1833); set_isbn (Some (py "9785170765432")) ] ].

Definition init_database (db : Session) : Session :=
  if (0 <? length (books db))%nat then db
  else foldl (λ db book_data, snd (add book_data db)) db initial_books.

(* ===================================================================== *)
(** ** Routing *)
(* ===================================================================== *)

(** Modelled from the spec: [verify_api_key] of [auth.py] (not in the
    sources).  The credential the caller sent, if any, must equal the
    configured secret; a mismatch or an absent credential is an
    [AuthError].  The check reads nothing but the secret. *)
Definition verify_api_key (cfg : config) (credential : option str) : outcome str :=
  match credential with
  | Some key => if bool_decide (key = API_KEY cfg) then Ok key else Raise AuthError
  | None => Raise AuthError
  end.

(** The attributes of a row, as the response model reads them. *)
Definition attributes (book : BookDB.t) : Body.t :=
  let attr {A} (x : option A) : field A :=
    match x with Some a => Value a | None => Null end in
  Body.mk (Value (BookDB.id book)) (attr (BookDB.title book))
    (attr (BookDB.author book)) (attr (BookDB.year book)) (attr (BookDB.isbn book)).

(** [response_model=Book]: what a handler returns is validated as a [Book];
    a value that is not one is a failure of the server, not of the caller. *)
Definition response_model_Book (cfg : config) (book : BookDB.t) : outcome Book.t :=
  match validate_Book cfg (attributes book) with
  | Ok b => Ok b
  | Raise _ => Raise ServerError
  end.

(** [response_model=List[Book]] *)
Fixpoint response_model_List_Book (cfg : config) (books : list BookDB.t)
  : outcome (list Book.t) :=
  match books with
  | [] => Ok []
  | book :: books' =>
      match response_model_Book cfg book, response_model_List_Book cfg books' with
      | Ok b, Ok bs => Ok (b :: bs)
      | _, _ => Raise ServerError
      end
  end.

Inductive request : Type :=
  | GET_books (skip limit : nat) (author : option str) (year_from year_to : option Z)
  | GET_book (book_id : Z)
  | POST_books (body : Body.t)
  | PUT_book (book_id : Z) (body : Body.t)
  | PATCH_book (book_id : Z) (body : Body.t)
  | GET_stats_books
  | DELETE_book (book_id : Z).

Inductive content : Type :=
  | book_list (l : list Book.t)
  | book_json (b : Book.t)
  | stats_json (s : statistics)
  | no_body.

Inductive response : Type :=
  | Success (status_code : nat) (c : content)
  | Failure (e : error).

(** The mutating operations: the routes declared with
    [Depends(verify_api_key)]. *)
Definition mutating (req : request) : bool :=
  match req with
  | POST_books _ | PUT_book _ _ | PATCH_book _ _ | DELETE_book _ => true
  | GET_books _ _ _ _ _ | GET_book _ | GET_stats_books => false
  end.

(** What is sent for the value (or the exception) a handler ended with. *)
Definition respond {A} (status_code : nat) (serialize : A → outcome content)
    (r : outcome A) : response :=
  match r with
  | Raise e => Failure e
  | Ok a =>
      match serialize a with
      | Ok c => Success status_code c
      | Raise e => Failure e
      end
  end.

Definition as_book (cfg : config) (book : BookDB.t) : outcome content :=
  match response_model_Book cfg book with
  | Ok b => Ok (book_json b)
  | Raise e => Raise e
  end.

Definition as_book_list (cfg : config) (books : list BookDB.t) : outcome content :=
  match response_model_List_Book cfg books with
  | Ok bs => Ok (book_list bs)
  | Raise e => Raise e
  end.

(** One request against the application: the dependency of the route
    first, then the validation of the body, then the handler, then the
    response model. *)
Definition app (cfg : config) (credential : option str) (req : request)
    (db : Session) : response * Session :=
  match req with
  | GET_books skip limit author year_from year_to =>
      (respond 200 (as_book_list cfg)
         (Ok (get_books skip limit author year_from year_to db)), db)
  | GET_book book_id => (respond 200 (as_book cfg) (get_book book_id db), db)
  | GET_stats_books =>
      (respond 200 (λ s, Ok (stats_json s)) (get_statistics db), db)
  | POST_books body =>
      match verify_api_key cfg credential with
      | Raise e => (Failure e, db)
      | Ok _ =>
          match validate_Book cfg body with
          | Raise e => (Failure e, db)
          | Ok book =>
              let '(r, db) := create_book book db in
              (respond 201 (as_book cfg) r, db)
          end
      end
  | PUT_book book_id body =>
      match verify_api_key cfg credential with
      | Raise e => (Failure e, db)
      | Ok _ =>
          match validate_Book cfg body with
          | Raise e => (Failure e, db)
          | Ok updated_book =>
              let '(r, db) := update_book book_id updated_book db in
              (respond 200 (as_book cfg) r, db)
          end
      end
  | PATCH_book book_id body =>
      match verify_api_key cfg credential with
      | Raise e => (Failure e, db)
      | Ok _ =>
          match validate_BookUpdate cfg body with
          | Raise e => (Failure e, db)
          | Ok book_update =>
              let '(r, db) := partial_update_book book_id book_update db in
              (respond 200 (as_book cfg) r, db)
          end
      end
  | DELETE_book book_id =>
      match verify_api_key cfg credential with
      | Raise e => (Failure e, db)
      | Ok _ =>
          let '(r, db) := delete_book book_id db in
          (respond 204 (λ _, Ok no_body) r, db)
      end
  end.

(* ===================================================================== *)
(** ** The field constraints of the data model *)
(* ===================================================================== *)

Definition len_between (lo hi : nat) (s : str) : Prop :=
  (lo ≤ length s ≤ hi)%nat.

(** The constraints of a persisted record, in the calendar year
    [current_year]: a title of 1 to 200 characters, an author of 1 to 100, a
    year from 1000 to the current one, and an ISBN, when there is one, of 10
    to 13 characters. *)
Definition Book_constraints (current_year : Z) (b : BookDB.t) : Prop :=
  (∃ t, BookDB.title b = Some t ∧ len_between 1 200 t)
  ∧ (∃ a, BookDB.author b = Some a ∧ len_between 1 100 a)
  ∧ (∃ y, BookDB.year b = Some y ∧ 1000 ≤ y ≤ current_year)
  ∧ (∀ i, BookDB.isbn b = Some i → len_between 10 13 i).

Definition store_valid (current_year : Z) (db : Session) : Prop :=
  Forall (Book_constraints current_year) (books db).

(** A request that does not send an explicit [null] for a required field
    in a partial update. *)
Definition no_null_patch (req : request) : Prop :=
  match req with
  | PATCH_book _ body =>
      Body.title body ≠ Null ∧ Body.author body ≠ Null ∧ Body.year body ≠ Null
  | _ => True
  end.

(** The store after [init_db.py] ran on an empty one. *)
Definition seeded : Session := init_database empty_db.

(** Concrete inputs for the examples below. *)
Definition cfg0 : config := {| API_KEY := py "secret"; year_le := 2024 |}.

Definition war_and_peace : BookDB.t :=
  BookDB.mk 1 (Some (py "Война и мир")) (Some (py "Лев Толстой")) (Some 1869)
    (Some (py "9785170987654")).

Definition some_book : Book.t :=
  Book.mk (Some 77) (py "Анна Каренина") (py "Лев Толстой") 1877 None.

Definition some_body : Body.t :=
  Body.mk (Value 77) (Value (py "Анна Каренина")) (Value (py "Лев Толстой"))
    (Value 1877) Unset.

Definition empty_body : Body.t := Body.mk Unset Unset Unset Unset Unset.

Definition retitle_body : Body.t :=
  Body.mk Unset (Value (py "War and Peace")) Unset Unset Unset.

Definition retitle : BookUpdate.t :=
  BookUpdate.mk (Some (Some (py "War and Peace"))) None None None.

Definition null_title_body : Body.t := Body.mk Unset Null Unset Unset Unset.

Definition null_year_body : Body.t := Body.mk Unset Unset Unset Null Unset.

(** What a body's key does to a column under a partial update: a key that
    is left out keeps the old value, a present one replaces it. *)
Definition patched {A} (old : option A) (x : field A) : option A :=
  match x with
  | Unset => old
  | Null => None
  | Value a => Some a
  end.

(** The row that [update_book] writes for a payload under an id. *)
Definition updated_row (book_id : Z) (updated_book : Book.t) : BookDB.t :=
  BookDB.mk book_id (Some (Book.title updated_book))
    (Some (Book.author updated_book)) (Some (Book.year updated_book))
    (Book.isbn updated_book).

(** [n] when it is a count that a [Counter] holds, which has no zero. *)
Definition counted (n : nat) : option nat :=
  match n with
  | O => None
  | S _ => Some n
  end.

(** The three tests of [get_books] on one row, each passed when its
    argument is falsy. *)
Definition passes (author : option str) (year_from year_to : option Z)
    (b : BookDB.t) : bool :=
  (if truthy_str author
   then ilike (BookDB.author b) (py "%" ++ default [] author ++ py "%")
   else true)
  && (if truthy_int year_from
      then sql_ge (BookDB.year b) (default 0 year_from) else true)
  && (if truthy_int year_to
      then sql_le (BookDB.year b) (default 0 year_to) else true).

(** The fields of two partial updates, those of the later one first. *)
Definition merge_update (later earlier : BookUpdate.t) : BookUpdate.t :=
  let pick {A} (x y : option A) : option A :=
    match x with Some _ => x | None => y end in
  BookUpdate.mk
    (pick (BookUpdate.title later) (BookUpdate.title earlier))
    (pick (BookUpdate.author later) (BookUpdate.author earlier))
    (pick (BookUpdate.year later) (BookUpdate.year earlier))
    (pick (BookUpdate.isbn later) (BookUpdate.isbn earlier)).

(** The store after a sequence of requests, each with its credential. *)
Definition serve (cfg : config) (reqs : list (option str * request))
    (db : Session) : Session :=
  foldl (λ db r, snd (app cfg (fst r) (snd r) db)) db reqs.

(* ===================================================================== *)
(** * Properties *)
(* ===================================================================== *)

Example py_ascii : py "abc" = [97; 98; 99]%N.
Proof. reflexivity. Qed.

Example py_cyrillic : py "толст" = [1090; 1086; 1083; 1089; 1090]%N.
Proof. reflexivity. Qed.

Example str_of_int_19 : str_of_int 19 = py "19".
Proof. vm_compute. reflexivity. Qed.

Example like_tolstoy : ilike (Some (py "Лев Толстой")) (py "%толст%") = true.
Proof. vm_compute. reflexivity. Qed.

Example seeded_ids : map BookDB.id (books seeded) = [1; 2; 3] ∧ next_id seeded = 4.
Proof. split; reflexivity. Qed.

Example seeded_first : first_by_id 1 seeded = Some war_and_peace.
Proof. reflexivity. Qed.

Example validate_some_body : validate_Book cfg0 some_body = Ok some_book.
Proof. reflexivity. Qed.

(* ===================================================================== *)
(** ** The store: lookups, writes and the primary key *)
(* ===================================================================== *)

Section store.
Implicit Types (db : Session) (book b : BookDB.t) (k : Z).

Lemma setattr_id book a : BookDB.id (setattr book a) = BookDB.id book.
Proof. destruct a; reflexivity. Qed.

Lemma foldl_setattr_id book l : BookDB.id (foldl setattr book l) = BookDB.id book.
Proof.
  revert book. induction l as [|a l IH]; intros book; simpl; [done|].
  rewrite IH. apply setattr_id.
Qed.

Lemma first_by_id_Some k db book :
  first_by_id k db = Some book → book ∈ books db ∧ BookDB.id book = k.
Proof.
  unfold first_by_id. intros H. apply find_some in H as [Hin Hid].
  split; [by apply list_elem_of_In | lia].
Qed.

Lemma first_by_id_None k db :
  first_by_id k db = None ↔ k ∉ map BookDB.id (books db).
Proof.
  unfold first_by_id. induction (books db) as [|b l IH]; simpl.
  - split; [intros _; apply not_elem_of_nil | done].
  - rewrite not_elem_of_cons. destruct (Z.eqb_spec (BookDB.id b) k) as [->|Hne].
    + split; [done | intros [? _]; done].
    + rewrite IH. split; [intros ?; split; [congruence | done] | intros [_ ?]; done].
Qed.

Lemma first_by_id_commit_update k db b book :
  first_by_id k db = Some b → BookDB.id book = k →
  first_by_id k (commit_update book db) = Some book.
Proof.
  unfold first_by_id, commit_update. simpl. intros Hfind <-.
  induction (books db) as [|r l IH]; simpl in *; [done|].
  destruct (Z.eqb_spec (BookDB.id r) (BookDB.id book)) as [Heq|Hne].
  - by rewrite Z.eqb_refl.
  - destruct (Z.eqb_spec (BookDB.id r) (BookDB.id book)); [done | by apply IH].
Qed.

Lemma first_by_id_commit_update_ne k db book :
  k ≠ BookDB.id book →
  first_by_id k (commit_update book db) = first_by_id k db.
Proof.
  unfold first_by_id, commit_update. simpl. intros Hne.
  induction (books db) as [|r l IH]; simpl; [done|].
  destruct (Z.eqb_spec (BookDB.id r) (BookDB.id book)) as [Heq|Hne'].
  - destruct (Z.eqb_spec (BookDB.id book) k); [congruence|].
    destruct (Z.eqb_spec (BookDB.id r) k); [congruence | done].
  - by rewrite IH.
Qed.

(** Rows of another id stay where they are, as they are. *)
Lemma commit_update_frame db book i b :
  books db !! i = Some b → BookDB.id b ≠ BookDB.id book →
  books (commit_update book db) !! i = Some b.
Proof.
  intros Hi Hne. unfold commit_update. simpl.
  rewrite list_lookup_fmap, Hi. simpl.
  by destruct (Z.eqb_spec (BookDB.id b) (BookDB.id book)).
Qed.

Lemma commit_update_length db book :
  length (books (commit_update book db)) = length (books db).
Proof. unfold commit_update. simpl. apply length_map. Qed.

Lemma refresh_commit_update k db b book :
  first_by_id k db = Some b → BookDB.id book = k →
  refresh book (commit_update book db) = book.
Proof.
  intros Hfind Hid. unfold refresh. rewrite Hid.
  by rewrite (first_by_id_commit_update k db b book).
Qed.

(** Writing a row back as it was read changes nothing, the ids being
    unique. *)
Lemma commit_update_same k db book :
  wf db → first_by_id k db = Some book → commit_update book db = db.
Proof.
  intros [Hnd _] Hfind. apply first_by_id_Some in Hfind as Hk.
  destruct Hk as [_ Hk]. destruct db as [l n].
  unfold commit_update, first_by_id in *. simpl in *. f_equal.
  induction l as [|r l IH]; simpl in *; [done|].
  apply NoDup_cons in Hnd as [Hr Hnd].
  destruct (Z.eqb_spec (BookDB.id r) k) as [Heq|Hne].
  - injection Hfind as ->. rewrite Hk, Z.eqb_refl. f_equal.
    rewrite <- (map_id l) at 2. apply map_ext_in. intros b Hb.
    destruct (Z.eqb_spec (BookDB.id b) k) as [Hbk|]; [|done].
    exfalso. apply Hr. rewrite Hk, <- Hbk.
    apply list_elem_of_fmap. exists b. split; [done | by apply list_elem_of_In].
  - destruct (Z.eqb_spec (BookDB.id r) (BookDB.id book)) as [Heq'|_]; [congruence|].
    f_equal. by apply IH.
Qed.

Lemma first_by_id_delete db book :
  first_by_id (BookDB.id book) (delete book db) = None.
Proof.
  apply first_by_id_None. unfold delete. simpl.
  intros Hin. apply list_elem_of_fmap in Hin as (b & Hid & Hb).
  apply list_elem_of_In, filter_In in Hb as [_ Hb].
  destruct (Z.eqb_spec (BookDB.id b) (BookDB.id book)); [done | congruence].
Qed.

Lemma first_by_id_delete_ne k db book :
  k ≠ BookDB.id book → first_by_id k (delete book db) = first_by_id k db.
Proof.
  unfold first_by_id, delete. simpl. intros Hne.
  induction (books db) as [|r l IH]; simpl; [done|].
  destruct (Z.eqb_spec (BookDB.id r) (BookDB.id book)) as [Heq|Hne']; simpl.
  - destruct (Z.eqb_spec (BookDB.id r) k); [congruence | done].
  - by rewrite IH.
Qed.

Lemma first_by_id_add k db kwargs :
  first_by_id k db = None →
  first_by_id k (snd (add kwargs db))
  = if next_id db =? k then Some (fst (add kwargs db)) else None.
Proof.
  unfold first_by_id, add. simpl. intros Hnone.
  induction (books db) as [|r l IH]; simpl in *.
  - by rewrite foldl_setattr_id.
  - destruct (BookDB.id r =? k); [done | by apply IH].
Qed.

Lemma wf_fresh db : wf db → first_by_id (next_id db) db = None.
Proof.
  intros [_ Hlt]. apply first_by_id_None. intros Hin.
  apply list_elem_of_fmap in Hin as (b & Hid & Hb).
  rewrite Forall_forall in Hlt. apply Hlt in Hb. lia.
Qed.

Lemma wf_empty : wf empty_db.
Proof. split; [apply NoDup_nil_2 | apply Forall_nil_2]. Qed.

Lemma wf_add db kwargs : wf db → wf (snd (add kwargs db)).
Proof.
  intros [Hnd Hlt]. unfold add, wf. simpl. split.
  - rewrite map_app. simpl. rewrite foldl_setattr_id. simpl.
    apply NoDup_app. split; [done|]. split; [|apply NoDup_singleton].
    intros x Hx Hx'. apply list_elem_of_singleton in Hx' as ->.
    apply list_elem_of_fmap in Hx as (b & Hid & Hb).
    rewrite Forall_forall in Hlt. apply Hlt in Hb. lia.
  - apply Forall_app. split.
    + eapply Forall_impl; [exact Hlt|]. intros b Hb. simpl in Hb. lia.
    + apply Forall_singleton. rewrite foldl_setattr_id. simpl. lia.
Qed.

Lemma wf_commit_update k db b book :
  wf db → first_by_id k db = Some b → BookDB.id book = k →
  wf (commit_update book db).
Proof.
  intros [Hnd Hlt] Hfind Hid. apply first_by_id_Some in Hfind as [Hin Hb].
  assert (Hids : map BookDB.id (books (commit_update book db))
                 = map BookDB.id (books db)).
  { unfold commit_update. simpl. rewrite map_map. apply map_ext.
    intros r. destruct (Z.eqb_spec (BookDB.id r) (BookDB.id book)); congruence. }
  split; [by rewrite Hids|].
  unfold commit_update. simpl. apply Forall_fmap.
  eapply Forall_impl; [exact Hlt|]. intros r Hr. simpl.
  destruct (Z.eqb_spec (BookDB.id r) (BookDB.id book)); [|done].
  rewrite Forall_forall in Hlt. apply Hlt in Hin. lia.
Qed.

Lemma wf_delete db book : wf db → wf (delete book db).
Proof.
  intros [Hnd Hlt]. unfold delete, wf. simpl. split.
  - revert Hnd. generalize (books db). intros l.
    induction l as [|r l IH]; simpl; [done|].
    intros [Hr Hnd]%NoDup_cons.
    destruct (BookDB.id r =? BookDB.id book); simpl; [by apply IH|].
    apply NoDup_cons. split; [|by apply IH].
    intros Hin. apply Hr. apply list_elem_of_fmap in Hin as (b & Hid & Hb).
    apply list_elem_of_fmap. exists b. split; [done|].
    apply list_elem_of_In. apply list_elem_of_In, filter_In in Hb. tauto.
  - rewrite Forall_forall in Hlt |- *. intros b Hb. apply Hlt.
    apply list_elem_of_In. apply list_elem_of_In, filter_In in Hb. tauto.
Qed.

Lemma wf_init_database db : wf db → wf (init_database db).
Proof.
  intros Hwf. unfold init_database. destruct (0 <? _)%nat; [done|].
  revert db Hwf. induction initial_books as [|book_data l IH]; simpl; [done|].
  intros db Hwf. apply IH. by apply wf_add.
Qed.

Lemma wf_seeded : wf seeded.
Proof. apply wf_init_database, wf_empty. Qed.
End store.

(* ===================================================================== *)
(** ** Validation *)
(* ===================================================================== *)

Section validation.
Variable cfg : config.

Lemma check_len_Valid lo hi s v :
  check_len lo hi s = Valid v ↔ v = s ∧ len_between lo hi s.
Proof.
  unfold check_len, len_between.
  destruct (Nat.ltb_spec (length s) lo), (Nat.ltb_spec hi (length s));
    split; try discriminate; try (intros [_ ?]; lia).
  - intros [= ->]. split; [done | lia].
  - by intros [-> _].
Qed.

Lemma check_range_Valid lo hi n v :
  check_range lo hi n = Valid v ↔ v = n ∧ lo ≤ n ≤ hi.
Proof.
  unfold check_range.
  destruct (Z.ltb_spec n lo), (Z.ltb_spec hi n);
    split; try discriminate; try (intros [_ ?]; lia).
  - intros [= ->]. split; [done | lia].
  - by intros [-> _].
Qed.

Lemma required_Valid {A} ty (check : A → checked A) x v :
  required ty check x = Valid v ↔ ∃ a, x = Value a ∧ check a = Valid v.
Proof.
  destruct x; simpl; split; try discriminate;
    try (intros (a' & ? & ?); discriminate).
  - intros H. by exists a.
  - by intros (a' & [= <-] & ?).
Qed.

Lemma optional_Valid {A} (check : A → checked A) x v :
  optional check x = Valid v ↔
  match x with
  | Value a => ∃ a', check a = Valid a' ∧ v = Some a'
  | _ => v = None
  end.
Proof.
  destruct x as [| |a]; simpl; [split; congruence..|].
  destruct (check a) as [a'|c]; split.
  - intros [= <-]. by exists a'.
  - by intros (? & [= <-] & ->).
  - discriminate.
  - by intros (? & ? & _).
Qed.

(** What an accepted [Book] body holds. *)
Lemma validate_Book_Ok body b :
  validate_Book cfg body = Ok b →
  Body.title body = Value (Book.title b) ∧ len_between 1 200 (Book.title b)
  ∧ Body.author body = Value (Book.author b) ∧ len_between 1 100 (Book.author b)
  ∧ Body.year body = Value (Book.year b) ∧ 1000 ≤ Book.year b ≤ year_le cfg
  ∧ Book.isbn b = patched None (Body.isbn body)
  ∧ (∀ i, Book.isbn b = Some i → len_between 10 13 i)
  ∧ Book.id b = patched None (Body.id body).
Proof.
  unfold validate_Book.
  destruct (required _ _ (Body.title body)) as [t|] eqn:Et; [|discriminate].
  destruct (required _ _ (Body.author body)) as [a|] eqn:Ea;
    [|discriminate].
  destruct (required _ _ (Body.year body)) as [y|] eqn:Ey; [|discriminate].
  destruct (optional _ (Body.isbn body)) as [i|] eqn:Ei; [|discriminate].
  intros [= <-]. simpl.
  apply required_Valid in Et as (t' & Ht & [-> ?]%check_len_Valid).
  apply required_Valid in Ea as (a' & Ha & [-> ?]%check_len_Valid).
  apply required_Valid in Ey as (y' & Hy & [-> ?]%check_range_Valid).
  apply optional_Valid in Ei.
  split_and!; try done; try lia.
  - destruct (Body.isbn body) as [| |s]; simpl; [done..|].
    by destruct Ei as (s' & [-> _]%check_len_Valid & ->).
  - intros i' ->. destruct (Body.isbn body) as [| |s]; [done..|].
    by destruct Ei as (s' & [-> ?]%check_len_Valid & [= ->]).
Qed.

(** A row within the constraints that the models check passes the
    response model. *)
Lemma response_model_Book_Ok book t a y :
  BookDB.title book = Some t → len_between 1 200 t →
  BookDB.author book = Some a → len_between 1 100 a →
  BookDB.year book = Some y → 1000 ≤ y ≤ year_le cfg →
  (∀ i, BookDB.isbn book = Some i → len_between 10 13 i) →
  response_model_Book cfg book
  = Ok (Book.mk (Some (BookDB.id book)) t a y (BookDB.isbn book)).
Proof.
  intros Ht Hlt Ha Hla Hy Hry Hi.
  unfold response_model_Book, validate_Book, attributes. simpl.
  rewrite Ht, Ha, Hy. simpl.
  assert (check_len 1 200 t = Valid t) as -> by by apply check_len_Valid.
  assert (check_len 1 100 a = Valid a) as -> by by apply check_len_Valid.
  assert (check_range 1000 (year_le cfg) y = Valid y) as ->
    by by apply check_range_Valid.
  destruct (BookDB.isbn book) as [i|]; simpl; [|done].
  assert (check_len 10 13 i = Valid i) as ->; [|done].
  apply check_len_Valid. split; [done | by apply Hi].
Qed.

(** What an accepted [BookUpdate] body holds: of each key, whether it was
    given and with what. *)
Lemma validate_BookUpdate_Ok body u :
  validate_BookUpdate cfg body = Ok u →
  (∀ old, default old (BookUpdate.title u) = patched old (Body.title body))
  ∧ (∀ old, default old (BookUpdate.author u) = patched old (Body.author body))
  ∧ (∀ old, default old (BookUpdate.year u) = patched old (Body.year body))
  ∧ (∀ old, default old (BookUpdate.isbn u) = patched old (Body.isbn body)).
Proof.
  unfold validate_BookUpdate.
  destruct (given (Body.title body) _) as [t|] eqn:Et; [|discriminate].
  destruct (given (Body.author body) _) as [a|] eqn:Ea; [|discriminate].
  destruct (given (Body.year body) _) as [y|] eqn:Ey; [|discriminate].
  destruct (given (Body.isbn body) _) as [i|] eqn:Ei; [|discriminate].
  intros [= <-]. simpl.
  split_and!; intros old.
  - destruct (Body.title body) as [| |x]; simpl in *; [by injection Et as <-..|].
    destruct (check_len 1 200 x) eqn:E; [|done]. injection Et as <-.
    by apply check_len_Valid in E as [-> _].
  - destruct (Body.author body) as [| |x]; simpl in *; [by injection Ea as <-..|].
    destruct (check_len 1 100 x) eqn:E; [|done]. injection Ea as <-.
    by apply check_len_Valid in E as [-> _].
  - destruct (Body.year body) as [| |x]; simpl in *; [by injection Ey as <-..|].
    destruct (check_range 1000 (year_le cfg) x) eqn:E; [|done]. injection Ey as <-.
    by apply check_range_Valid in E as [-> _].
  - destruct (Body.isbn body) as [| |x]; simpl in *; [by injection Ei as <-..|].
    destruct (check_len 10 13 x) eqn:E; [|done]. injection Ei as <-.
    by apply check_len_Valid in E as [-> _].
Qed.
End validation.

(* ===================================================================== *)
(** ** Partial update, full update, delete, create *)
(* ===================================================================== *)

Lemma verify_api_key_Ok cfg :
  verify_api_key cfg (Some (API_KEY cfg)) = Ok (API_KEY cfg).
Proof. unfold verify_api_key. by rewrite bool_decide_eq_true_2. Qed.

Lemma verify_api_key_Raise cfg credential :
  credential ≠ Some (API_KEY cfg) → verify_api_key cfg credential = Raise AuthError.
Proof.
  intros Hne. destruct credential as [key|]; simpl; [|done].
  rewrite bool_decide_eq_false_2; [done | congruence].
Qed.

Lemma foldl_setattr_exclude_unset book u :
  foldl setattr book (model_dump_exclude_unset u)
  = BookDB.mk (BookDB.id book)
      (default (BookDB.title book) (BookUpdate.title u))
      (default (BookDB.author book) (BookUpdate.author u))
      (default (BookDB.year book) (BookUpdate.year u))
      (default (BookDB.isbn book) (BookUpdate.isbn u)).
Proof.
  destruct book as [k t a y i], u as [[t'|] [a'|] [y'|] [i'|]]; reflexivity.
Qed.

Lemma foldl_setattr_exclude_id book b :
  foldl setattr book (model_dump_exclude_id b)
  = BookDB.mk (BookDB.id book) (Some (Book.title b)) (Some (Book.author b))
      (Some (Book.year b)) (Book.isbn b).
Proof. destruct book, b; reflexivity. Qed.

Lemma create_book_added book db :
  create_book book db
  = (Ok (refresh (updated_row (next_id db) book)
           (snd (add (model_dump_exclude_id book) db))),
     snd (add (model_dump_exclude_id book) db))
  ∧ books (snd (add (model_dump_exclude_id book) db))
    = books db ++ [updated_row (next_id db) book].
Proof.
  unfold create_book, add. by rewrite foldl_setattr_exclude_id.
Qed.

(** C2: for an existing record and any accepted partial-update payload,
    [partial_update_book] sets exactly the fields whose keys the payload
    holds and keeps every other field and the id; rows of other ids are
    untouched.  A payload that holds no field is accepted and leaves the
    record as it was (and, the ids being unique, the whole store). *)
Theorem partial_update_book_frame :
  (∀ cfg body book_update book_id db book,
     validate_BookUpdate cfg body = Ok book_update →
     first_by_id book_id db = Some book →
     ∃ book' db',
       partial_update_book book_id book_update db = (Ok book', db')
       ∧ BookDB.id book' = BookDB.id book
       ∧ BookDB.title book' = patched (BookDB.title book) (Body.title body)
       ∧ BookDB.author book' = patched (BookDB.author book) (Body.author body)
       ∧ BookDB.year book' = patched (BookDB.year book) (Body.year body)
       ∧ BookDB.isbn book' = patched (BookDB.isbn book) (Body.isbn body)
       ∧ first_by_id book_id db' = Some book'
       ∧ length (books db') = length (books db)
       ∧ (∀ i b, books db !! i = Some b → BookDB.id b ≠ book_id →
                 books db' !! i = Some b)
       ∧ next_id db' = next_id db
       ∧ snd (app cfg (Some (API_KEY cfg)) (PATCH_book book_id body) db) = db')
  ∧ (∀ cfg id book_id db book,
       first_by_id book_id db = Some book →
       ∃ book_update db',
         validate_BookUpdate cfg (Body.mk id Unset Unset Unset Unset) = Ok book_update
         ∧ partial_update_book book_id book_update db = (Ok book, db')
         ∧ first_by_id book_id db' = Some book
         ∧ (wf db → db' = db)).
Proof.
  split.
  - intros cfg body u book_id db book Hu Hfind.
    apply first_by_id_Some in Hfind as Hid. destruct Hid as [_ Hid].
    pose proof (validate_BookUpdate_Ok cfg body u Hu) as (Ht & Ha & Hy & Hi).
    assert (Hrun : ∃ book',
      partial_update_book book_id u db = (Ok book', commit_update book' db)
      ∧ book' = BookDB.mk (BookDB.id book)
                  (default (BookDB.title book) (BookUpdate.title u))
                  (default (BookDB.author book) (BookUpdate.author u))
                  (default (BookDB.year book) (BookUpdate.year u))
                  (default (BookDB.isbn book) (BookUpdate.isbn u))).
    { eexists. split; [|reflexivity].
      unfold partial_update_book. rewrite Hfind, foldl_setattr_exclude_unset.
      by rewrite (refresh_commit_update book_id db book). }
    destruct Hrun as (book' & Hrun & Hbook').
    assert (Hid' : BookDB.id book' = book_id) by by rewrite Hbook'.
    exists book', (commit_update book' db).
    split_and!; try done.
    + by rewrite Hbook'.
    + rewrite Hbook'. apply Ht.
    + rewrite Hbook'. apply Ha.
    + rewrite Hbook'. apply Hy.
    + rewrite Hbook'. apply Hi.
    + by apply (first_by_id_commit_update book_id db book).
    + apply commit_update_length.
    + intros i b Hb Hne. apply commit_update_frame; [done | congruence].
    + unfold app. by rewrite verify_api_key_Ok, Hu, Hrun.
  - intros cfg id book_id db book Hfind.
    apply first_by_id_Some in Hfind as Hid. destruct Hid as [_ Hid].
    exists (BookUpdate.mk None None None None).
    unfold partial_update_book. rewrite Hfind.
    rewrite foldl_setattr_exclude_unset. simpl.
    assert (Hsame : BookDB.mk (BookDB.id book) (BookDB.title book)
                      (BookDB.author book) (BookDB.year book) (BookDB.isbn book)
                    = book) by by destruct book.
    rewrite Hsame. exists (commit_update book db).
    rewrite (refresh_commit_update book_id db book book) by done.
    split_and!; try done.
    + by apply (first_by_id_commit_update book_id db book).
    + intros Hwf. by apply (commit_update_same book_id).
Qed.

Lemma partial_update_book_frame_witness :
  ∃ book' db',
    partial_update_book 1 retitle seeded = (Ok book', db')
    ∧ BookDB.title book' = Some (py "War and Peace")
    ∧ BookDB.author book' = Some (py "Лев Толстой")
    ∧ first_by_id 1 db' = Some book'.
Proof.
  destruct (proj1 partial_update_book_frame cfg0 retitle_body retitle 1 seeded
              war_and_peace eq_refl eq_refl)
    as (book' & db' & H & _ & Ht & Ha & _ & _ & Hf & _).
  exists book', db'. split_and!; done.
Defined.

Lemma update_book_found book_id updated_book db book :
  first_by_id book_id db = Some book →
  update_book book_id updated_book db
  = (Ok (updated_row book_id updated_book),
     commit_update (updated_row book_id updated_book) db).
Proof.
  intros Hfind. apply first_by_id_Some in Hfind as Hid. destruct Hid as [_ Hid].
  unfold update_book. rewrite Hfind, foldl_setattr_exclude_id, Hid.
  fold (updated_row book_id updated_book).
  by rewrite (refresh_commit_update book_id db book).
Qed.

(** C3: [update_book] fails with [NotFound] when no record has the id, and
    leaves the store alone; otherwise it writes every field but the id from
    the payload (whatever the old values were), persists the record and
    returns it, the id being the one it had.  Through the route, with the
    credential and an accepted body, the answer is the updated record. *)
Theorem update_book_replaces :
  (∀ book_id updated_book db,
     first_by_id book_id db = None →
     update_book book_id updated_book db = (Raise (NotFound book_id), db))
  ∧ (∀ book_id updated_book db book,
       first_by_id book_id db = Some book →
       ∃ book' db',
         update_book book_id updated_book db = (Ok book', db')
         ∧ book' = BookDB.mk book_id (Some (Book.title updated_book))
                     (Some (Book.author updated_book))
                     (Some (Book.year updated_book)) (Book.isbn updated_book)
         ∧ BookDB.id book' = BookDB.id book
         ∧ first_by_id book_id db' = Some book'
         ∧ length (books db') = length (books db)
         ∧ (∀ i b, books db !! i = Some b → BookDB.id b ≠ book_id →
                   books db' !! i = Some b)
         ∧ next_id db' = next_id db)
  ∧ (∀ cfg book_id body updated_book db book,
       validate_Book cfg body = Ok updated_book →
       first_by_id book_id db = Some book →
       fst (app cfg (Some (API_KEY cfg)) (PUT_book book_id body) db)
       = Success 200
           (book_json (Book.mk (Some book_id) (Book.title updated_book)
                         (Book.author updated_book) (Book.year updated_book)
                         (Book.isbn updated_book)))).
Proof.
  pose proof update_book_found as Hupd.
  split_and!.
  - intros book_id updated_book db Hnone. unfold update_book. by rewrite Hnone.
  - intros book_id updated_book db book Hfind.
    apply first_by_id_Some in Hfind as Hid. destruct Hid as [_ Hid].
    eexists _, _. split; [by apply (Hupd _ _ _ book)|].
    split_and!; try done.
    + by apply (first_by_id_commit_update book_id db book).
    + apply commit_update_length.
    + intros i b Hb Hne. by apply commit_update_frame.
  - intros cfg book_id body updated_book db book Hbody Hfind.
    unfold app, verify_api_key. rewrite bool_decide_eq_true_2 by done.
    rewrite Hbody, (Hupd _ _ _ book) by done. simpl.
    apply (validate_Book_Ok cfg) in Hbody
      as (_ & Ht & _ & Ha & _ & Hy & _ & Hi & _).
    unfold as_book.
    by rewrite (response_model_Book_Ok cfg _ (Book.title updated_book)
                  (Book.author updated_book) (Book.year updated_book)).
Qed.

Lemma update_book_replaces_witness :
  update_book 9 some_book seeded = (Raise (NotFound 9), seeded)
  ∧ (∃ book' db',
       update_book 1 some_book seeded = (Ok book', db')
       ∧ book' = BookDB.mk 1 (Some (py "Анна Каренина")) (Some (py "Лев Толстой"))
                   (Some 1877) None
       ∧ first_by_id 1 db' = Some book').
Proof.
  destruct update_book_replaces as (Hnone & Hsome & _). split.
  - apply Hnone. reflexivity.
  - destruct (Hsome 1 some_book seeded war_and_peace eq_refl)
      as (book' & db' & H & Hb & _ & Hf & _).
    exists book', db'. split_and!; done.
Defined.

(** C9: [delete_book] on an id of the store succeeds with nothing to
    return (status 204, no body, through the route) and removes the record,
    the other rows staying in their order; [get_book] on the same id then
    fails with [NotFound].  On an id that is not in the store it fails with
    [NotFound] and the store is as it was. *)
Theorem delete_book_then_get_book :
  (∀ book_id db book,
     first_by_id book_id db = Some book →
     ∃ db',
       delete_book book_id db = (Ok (), db')
       ∧ books db' = List.filter (λ b, negb (BookDB.id b =? book_id)) (books db)
       ∧ (book_id ∉ map BookDB.id (books db'))
       ∧ (∀ k, k ≠ book_id → first_by_id k db' = first_by_id k db)
       ∧ get_book book_id db' = Raise (NotFound book_id)
       ∧ (∀ cfg,
            app cfg (Some (API_KEY cfg)) (DELETE_book book_id) db
            = (Success 204 no_body, db'))
       ∧ (∀ cfg credential,
            app cfg credential (GET_book book_id) db'
            = (Failure (NotFound book_id), db')))
  ∧ (∀ book_id db,
       first_by_id book_id db = None →
       delete_book book_id db = (Raise (NotFound book_id), db)
       ∧ (∀ cfg,
            app cfg (Some (API_KEY cfg)) (DELETE_book book_id) db
            = (Failure (NotFound book_id), db))).
Proof.
  split.
  - intros book_id db book Hfind.
    apply first_by_id_Some in Hfind as Hid. destruct Hid as [_ Hid].
    assert (Hdel : delete_book book_id db = (Ok (), delete book db)).
    { unfold delete_book. by rewrite Hfind. }
    assert (Hgone : first_by_id book_id (delete book db) = None).
    { rewrite <- Hid. apply first_by_id_delete. }
    exists (delete book db). split_and!; try done.
    + unfold delete. simpl. by rewrite Hid.
    + by apply first_by_id_None.
    + intros k Hk. apply first_by_id_delete_ne. congruence.
    + unfold get_book. by rewrite Hgone.
    + intros cfg. unfold app, verify_api_key.
      rewrite bool_decide_eq_true_2 by done. by rewrite Hdel.
    + intros cfg credential. unfold app, get_book. by rewrite Hgone.
  - intros book_id db Hnone.
    assert (Hdel : delete_book book_id db = (Raise (NotFound book_id), db)).
    { unfold delete_book. by rewrite Hnone. }
    split; [done|]. intros cfg. unfold app, verify_api_key.
    rewrite bool_decide_eq_true_2 by done. by rewrite Hdel.
Qed.

Lemma delete_book_then_get_book_witness :
  (∃ db', delete_book 2 seeded = (Ok (), db')
          ∧ map BookDB.id (books db') = [1; 3]
          ∧ get_book 2 db' = Raise (NotFound 2))
  ∧ delete_book 9 seeded = (Raise (NotFound 9), seeded).
Proof.
  destruct delete_book_then_get_book as [Hsome Hnone]. split.
  - destruct (Hsome 2 seeded _ eq_refl) as (db' & Hdel & Hbooks & _ & _ & Hget & _).
    exists db'. split_and!; [done | by rewrite Hbooks | done].
  - by apply Hnone.
Defined.

(** C10: an id in the request body has no effect.  [create_book] does the
    same whatever id the payload carries; the record gets the id the store
    chose, which no record of the store had, and the payload's other
    fields.  [update_book] does the same whatever id the payload carries,
    and the record keeps the id of the path. *)
Theorem body_id_ignored :
  (∀ id id' title author year isbn db,
     create_book (Book.mk id title author year isbn) db
     = create_book (Book.mk id' title author year isbn) db)
  ∧ (∀ book db,
       wf db →
       ∃ db_book db',
         create_book book db = (Ok db_book, db')
         ∧ BookDB.id db_book = next_id db
         ∧ (BookDB.id db_book ∉ map BookDB.id (books db))
         ∧ db_book = BookDB.mk (next_id db) (Some (Book.title book))
                       (Some (Book.author book)) (Some (Book.year book))
                       (Book.isbn book)
         ∧ books db' = books db ++ [db_book]
         ∧ first_by_id (BookDB.id db_book) db' = Some db_book)
  ∧ (∀ cfg body book db,
       wf db → validate_Book cfg body = Ok book →
       fst (app cfg (Some (API_KEY cfg)) (POST_books body) db)
       = Success 201
           (book_json (Book.mk (Some (next_id db)) (Book.title book)
                         (Book.author book) (Book.year book) (Book.isbn book))))
  ∧ (∀ book_id id id' title author year isbn db,
       update_book book_id (Book.mk id title author year isbn) db
       = update_book book_id (Book.mk id' title author year isbn) db)
  ∧ (∀ book_id updated_book db book,
       first_by_id book_id db = Some book →
       ∃ book' db',
         update_book book_id updated_book db = (Ok book', db')
         ∧ BookDB.id book' = book_id
         ∧ first_by_id book_id db' = Some book').
Proof.
  split_and!.
  - reflexivity.
  - intros book db Hwf. pose proof (wf_fresh db Hwf) as Hfresh.
    unfold create_book.
    destruct (add (model_dump_exclude_id book) db) as [db_book db'] eqn:Hadd.
    pose proof (first_by_id_add (next_id db) db (model_dump_exclude_id book) Hfresh)
      as Hfirst.
    rewrite Hadd, Z.eqb_refl in Hfirst. simpl in Hfirst.
    unfold add in Hadd. rewrite foldl_setattr_exclude_id in Hadd. simpl in Hadd.
    injection Hadd as <- <-. simpl in *.
    exists (BookDB.mk (next_id db) (Some (Book.title book))
              (Some (Book.author book)) (Some (Book.year book)) (Book.isbn book)).
    eexists. unfold refresh. simpl. rewrite Hfirst. simpl.
    split_and!; try done.
    by apply first_by_id_None.
  - intros cfg body book db Hwf Hbody. pose proof (wf_fresh db Hwf) as Hfresh.
    unfold app. rewrite verify_api_key_Ok, Hbody.
    destruct (create_book_added book db) as [-> _].
    pose proof (first_by_id_add (next_id db) db (model_dump_exclude_id book) Hfresh)
      as Hfirst.
    rewrite Z.eqb_refl in Hfirst.
    assert (Hrow : fst (add (model_dump_exclude_id book) db)
                   = updated_row (next_id db) book).
    { unfold add. by rewrite foldl_setattr_exclude_id. }
    rewrite Hrow in Hfirst.
    unfold refresh. change (BookDB.id (updated_row (next_id db) book))
      with (next_id db). rewrite Hfirst.
    apply (validate_Book_Ok cfg) in Hbody
      as (_ & Ht & _ & Ha & _ & Hy & _ & Hi & _).
    unfold fst, respond, as_book. simpl default.
    by rewrite (response_model_Book_Ok cfg _ (Book.title book)
                  (Book.author book) (Book.year book)).
  - reflexivity.
  - intros book_id updated_book db book Hfind.
    apply first_by_id_Some in Hfind as Hid. destruct Hid as [_ Hid].
    eexists _, _. split; [by apply (update_book_found _ _ _ book)|].
    split; [done|].
    by apply (first_by_id_commit_update book_id db book).
Qed.

Lemma body_id_ignored_witness :
  (∃ db_book db',
     create_book some_book seeded = (Ok db_book, db')
     ∧ BookDB.id db_book = 4
     ∧ (BookDB.id db_book ∉ map BookDB.id (books seeded)))
  ∧ (∃ book' db',
       update_book 1 some_book seeded = (Ok book', db')
       ∧ BookDB.id book' = 1).
Proof.
  destruct body_id_ignored as (_ & Hcreate & _ & _ & Hupdate). split.
  - destruct (Hcreate some_book seeded wf_seeded)
      as (db_book & db' & H & Hid & Hfresh & _).
    by exists db_book, db'.
  - destruct (Hupdate 1 some_book seeded war_and_peace eq_refl)
      as (book' & db' & H & Hid & _).
    by exists book', db'.
Defined.

(* ===================================================================== *)
(** ** The auth check and the validation of a create *)
(* ===================================================================== *)

Lemma validate_Book_invalid_year cfg body c :
  required int_type (check_range 1000 (year_le cfg)) (Body.year body) = Invalid c →
  ∃ errors,
    validate_Book cfg body = Raise (ValidationError errors) ∧ (F_year, c) ∈ errors.
Proof.
  intros Hy. unfold validate_Book. rewrite Hy.
  destruct (required string_type (check_len 1 200) (Body.title body)),
    (required string_type (check_len 1 100) (Body.author body)),
    (optional (check_len 10 13) (Body.isbn body));
    simpl; eexists; (split; [reflexivity|]); set_solver.
Qed.

(** C4: a create whose year is below 1000 or above the current calendar
    year is refused by the [Book] model with a [ValidationError] that names
    the year and the bound it broke; the handler is not reached, and the
    store is as it was.  The model's upper bound is the year in which the
    process started, which the current year is not before.  With the
    credential the caller gets this [ValidationError]; without it the
    request ends at the auth check, before validation. *)
Theorem create_year_out_of_range cfg current_year credential body y db :
  year_le cfg ≤ current_year →
  Body.year body = Value y →
  y < 1000 ∨ current_year < y →
  ∃ errors c,
    validate_Book cfg body = Raise (ValidationError errors)
    ∧ (F_year, c) ∈ errors
    ∧ (c = greater_than_equal 1000 ∨ c = less_than_equal (year_le cfg))
    ∧ snd (app cfg credential (POST_books body) db) = db
    ∧ (credential = Some (API_KEY cfg) →
       app cfg credential (POST_books body) db
       = (Failure (ValidationError errors), db))
    ∧ (credential ≠ Some (API_KEY cfg) →
       app cfg credential (POST_books body) db = (Failure AuthError, db)).
Proof.
  intros Hnow Hy Hrange.
  assert (Hc : ∃ c,
    required int_type (check_range 1000 (year_le cfg)) (Body.year body) = Invalid c
    ∧ (c = greater_than_equal 1000 ∨ c = less_than_equal (year_le cfg))).
  { rewrite Hy. simpl. unfold check_range.
    destruct (Z.ltb_spec y 1000); [eauto|].
    destruct (Z.ltb_spec (year_le cfg) y); [eauto | lia]. }
  destruct Hc as (c & Hc & Hwhich).
  destruct (validate_Book_invalid_year cfg body c Hc) as (errors & Hv & Hin).
  exists errors, c. split_and!; try done.
  - unfold app. destruct (verify_api_key cfg credential); [by rewrite Hv | done].
  - intros ->. unfold app. by rewrite verify_api_key_Ok, Hv.
  - intros Hne. unfold app. by rewrite verify_api_key_Raise.
Qed.

Lemma create_year_out_of_range_witness :
  ∃ errors,
    app cfg0 (Some (py "secret"))
      (POST_books (Body.mk Unset (Value (py "t")) (Value (py "a")) (Value 999) Unset))
      seeded
    = (Failure (ValidationError errors), seeded)
    ∧ (F_year, greater_than_equal 1000) ∈ errors.
Proof.
  destruct (create_year_out_of_range cfg0 2026 (Some (py "secret"))
              (Body.mk Unset (Value (py "t")) (Value (py "a")) (Value 999) Unset)
              999 seeded)
    as (errors & c & Hv & Hin & _ & _ & Happ & _).
  - simpl. lia.
  - reflexivity.
  - left. lia.
  - exists errors. split; [by apply Happ|].
    vm_compute in Hv. injection Hv as <-. apply list_elem_of_here.
Defined.

Lemma response_model_Book_Raise cfg book e :
  response_model_Book cfg book = Raise e → e = ServerError.
Proof.
  unfold response_model_Book. destruct (validate_Book _ _); congruence.
Qed.

Lemma response_model_List_Book_Raise cfg l e :
  response_model_List_Book cfg l = Raise e → e = ServerError.
Proof.
  destruct l as [|book l]; simpl; [discriminate|].
  destruct (response_model_Book cfg book), (response_model_List_Book cfg l);
    congruence.
Qed.

Lemma get_statistics_Raise db e :
  get_statistics db = Raise e → e = ServerError.
Proof. unfold get_statistics. destruct (mapM _ _); congruence. Qed.

(** C5: a create, full update, partial update or delete whose credential
    is absent or differs from the configured secret fails with an
    [AuthError], and the store is as it was.  These four are the mutating
    requests.  A list, a get by id and the statistics are answered the same
    whatever credential comes with them, never with an [AuthError], and
    leave the store as it was. *)
Theorem mutating_requires_credential :
  (∀ cfg credential req db,
     mutating req = true → credential ≠ Some (API_KEY cfg) →
     app cfg credential req db = (Failure AuthError, db))
  ∧ (∀ req,
       mutating req = true ↔
       (∃ body, req = POST_books body)
       ∨ (∃ book_id body, req = PUT_book book_id body)
       ∨ (∃ book_id body, req = PATCH_book book_id body)
       ∨ (∃ book_id, req = DELETE_book book_id))
  ∧ (∀ cfg credential credential' req db,
       mutating req = false →
       app cfg credential req db = app cfg credential' req db
       ∧ snd (app cfg credential req db) = db
       ∧ fst (app cfg credential req db) ≠ Failure AuthError).
Proof.
  split_and!.
  - intros cfg credential req db Hmut Hne.
    destruct req; try discriminate; unfold app;
      by rewrite verify_api_key_Raise.
  - intros req. split.
    + destruct req; try discriminate; intros _; eauto 10.
    + intros [(? & ->)|[(? & ? & ->)|[(? & ? & ->)|(? & ->)]]]; reflexivity.
  - intros cfg credential credential' req db Hmut.
    destruct req; try discriminate; (split_and!; [reflexivity..|]); simpl.
    + unfold as_book_list.
      destruct (response_model_List_Book _ _) as [|e] eqn:E; [done|].
      by apply response_model_List_Book_Raise in E as ->.
    + unfold get_book, as_book.
      destruct (first_by_id book_id db) as [book|]; simpl; [|done].
      destruct (response_model_Book _ _) as [|e] eqn:E; [done|].
      by apply response_model_Book_Raise in E as ->.
    + destruct (get_statistics db) as [|e] eqn:E; simpl; [done|].
      by apply get_statistics_Raise in E as ->.
Qed.

Lemma mutating_requires_credential_witness :
  app cfg0 None (DELETE_book 1) seeded = (Failure AuthError, seeded)
  ∧ app cfg0 (Some (py "guess")) (POST_books some_body) seeded
    = (Failure AuthError, seeded).
Proof.
  destruct mutating_requires_credential as (Hmut & _ & _).
  split; apply Hmut; try reflexivity; discriminate.
Defined.

(* ===================================================================== *)
(** ** Listing *)
(* ===================================================================== *)

(** C8: a filter of [get_books] is applied only when its argument is
    truthy.  An empty author string, and a zero [year_from] or [year_to],
    give what the absent argument gives; with [year_from] zero and no other
    filter the records of every year are listed, a page of the whole table.
    Any other value of the argument filters. *)
Theorem get_books_falsy_filters skip limit author year_from year_to db :
  get_books skip limit (Some []) year_from year_to db
  = get_books skip limit None year_from year_to db
  ∧ get_books skip limit author (Some 0) year_to db
    = get_books skip limit author None year_to db
  ∧ get_books skip limit author year_from (Some 0) db
    = get_books skip limit author year_from None db
  ∧ get_books skip limit None (Some 0) None db = take limit (drop skip (books db))
  ∧ get_books skip limit (Some []) None None db = take limit (drop skip (books db))
  ∧ get_books 0 10 None (Some 0) None seeded = books seeded
  ∧ (∀ y,
       get_books skip limit None (Some y) None db
       = take limit
           (drop skip
              (if y =? 0 then books db
               else List.filter (λ b, sql_ge (BookDB.year b) y) (books db))))
  ∧ (∀ y,
       get_books skip limit None None (Some y) db
       = take limit
           (drop skip
              (if y =? 0 then books db
               else List.filter (λ b, sql_le (BookDB.year b) y) (books db))))
  ∧ (∀ a,
       get_books skip limit (Some a) None None db
       = take limit
           (drop skip
              (match a with
               | [] => books db
               | _ :: _ =>
                   List.filter
                     (λ b, ilike (BookDB.author b) (py "%" ++ a ++ py "%"))
                     (books db)
               end))).
Proof.
  split_and!; try reflexivity.
  - intros y. unfold get_books, truthy_int. simpl. by destruct (y =? 0).
  - intros y. unfold get_books, truthy_int. simpl. by destruct (y =? 0).
  - intros a. unfold get_books. by destruct a.
Qed.

(* ===================================================================== *)
(** ** Statistics *)
(* ===================================================================== *)

Lemma counted_default n : default 0%nat (counted n) = n.
Proof. by destruct n. Qed.

Section counter.
Context `{Countable K}.
Implicit Types (c : gmap K nat) (xs : list K) (x : K).

Lemma foldl_count_one_lookup {A} (g : A → K) (l : list A) c x n :
  c !! x = counted n →
  foldl count_one c (map g l) !! x
  = counted (n + length (List.filter (λ a, bool_decide (g a = x)) l)).
Proof.
  revert c n. induction l as [|a l IH]; intros c n Hc; simpl.
  - by rewrite Nat.add_0_r.
  - destruct (decide (g a = x)) as [->|Hne].
    + rewrite bool_decide_eq_true_2 by done. simpl.
      rewrite (IH _ (S n)); [f_equal; lia|].
      unfold count_one. by rewrite lookup_insert_eq, Hc, counted_default.
    + rewrite bool_decide_eq_false_2 by done.
      apply IH. unfold count_one. by rewrite lookup_insert_ne.
Qed.

Lemma Counter_lookup {A} (g : A → K) (l : list A) x :
  Counter (map g l) !! x
  = counted (length (List.filter (λ a, bool_decide (g a = x)) l)).
Proof. apply (foldl_count_one_lookup g l ∅ x 0). apply lookup_empty. Qed.

Lemma sum_values_insert c x n :
  c !! x = None → sum_values (<[x := n]> c) = (n + sum_values c)%nat.
Proof.
  intros Hx. unfold sum_values.
  rewrite map_fold_insert_L; [done | intros; lia | done].
Qed.

Lemma sum_values_count_one c x : sum_values (count_one c x) = S (sum_values c).
Proof.
  unfold count_one. destruct (c !! x) as [n|] eqn:Hx; simpl.
  - rewrite <- (insert_delete_id c x n Hx) at 2.
    rewrite <- insert_delete_eq.
    rewrite !sum_values_insert by apply lookup_delete_eq. lia.
  - by rewrite sum_values_insert.
Qed.

Lemma sum_values_foldl_count_one c xs :
  sum_values (foldl count_one c xs) = (sum_values c + length xs)%nat.
Proof.
  revert c. induction xs as [|x xs IH]; intros c; simpl; [lia|].
  rewrite IH, sum_values_count_one. lia.
Qed.

(** The counts of a [Counter] add up to the number of elements counted. *)
Lemma sum_values_Counter xs : sum_values (Counter xs) = length xs.
Proof.
  unfold Counter. rewrite sum_values_foldl_count_one.
  unfold sum_values. by rewrite map_fold_empty.
Qed.
End counter.

Lemma str_of_int_inj m n : str_of_int m = str_of_int n → m = n.
Proof.
  unfold str_of_int. intros Heq.
  apply (inj pretty). rewrite <- (String.string_of_list_ascii_of_string (pretty m)).
  rewrite <- (String.string_of_list_ascii_of_string (pretty n)). f_equal.
  revert Heq. generalize (String.list_ascii_of_string (pretty m)).
  generalize (String.list_ascii_of_string (pretty n)). intros l2 l1.
  revert l2. induction l1 as [|a l1 IH]; intros [|b l2]; simpl; try done.
  intros [= Hab Hl]. f_equal; [|by apply IH].
  rewrite <- (Ascii.ascii_N_embedding a), <- (Ascii.ascii_N_embedding b).
  by rewrite Hab.
Qed.

(** Two centuries never share a key of the response. *)
Lemma century_label_inj c c' : century_label c = century_label c' → c = c'.
Proof.
  unfold century_label. intros Heq. apply app_inv_tail in Heq.
  by apply str_of_int_inj.
Qed.

(** The comprehension over [centuries.items()] keeps every count under the
    label of its century, and has no other key. *)
Lemma century_labels_lookup (centuries : gmap Z nat) :
  let d := map_fold (λ century count d, <[century_label century := count]> d)
             ∅ centuries in
  (∀ c, d !! century_label c = centuries !! c)
  ∧ (∀ k, is_Some (d !! k) → ∃ c, k = century_label c)
  ∧ sum_values d = sum_values centuries.
Proof.
  apply (map_fold_weak_ind
           (λ d m, (∀ c, d !! century_label c = m !! c)
                   ∧ (∀ k, is_Some (d !! k) → ∃ c, k = century_label c)
                   ∧ sum_values d = sum_values m)).
  - split_and!.
    + intros c. by rewrite !lookup_empty.
    + intros k [? Hk]. by rewrite lookup_empty in Hk.
    + done.
  - intros i x m r Hi (Hlook & Hkeys & Hsum). split_and!.
    + intros c. destruct (decide (c = i)) as [->|Hne].
      * by rewrite !lookup_insert_eq.
      * rewrite !lookup_insert_ne; [apply Hlook | done |].
        intros Heq. by apply century_label_inj in Heq.
    + intros k Hk. destruct (decide (k = century_label i)) as [->|Hne]; [eauto|].
      rewrite lookup_insert_ne in Hk by done. by apply Hkeys.
    + rewrite !sum_values_insert; [by rewrite Hsum | done |].
      by rewrite Hlook.
Qed.

Lemma mapM_century l :
  Forall (λ b, is_Some (BookDB.year b)) l →
  mapM (λ book, century <$> BookDB.year book) l
  = Some (map (λ book, century (default 0 (BookDB.year book))) l).
Proof.
  induction 1 as [|b l [y Hy] _ IH]; simpl; [done|].
  by rewrite Hy, IH.
Qed.

(** X17: on a store whose records all have a year, [get_statistics]
    returns the number of records as [total_books]; under each author the
    number of records with exactly that author, these counts adding up to
    [total_books]; and under the key of each century [c], which is the
    decimal numeral of [c], a space and the unit, the number of records
    whose year [y] has [y / 100 + 1 = c] (floor division), with no other
    key, these counts adding up to [total_books] too.  Records of the years
    1869, 1866 and 1833 all fall in century 19: [total_books] is 3 and the
    one century key holds 3. *)
Theorem get_statistics_counts :
  (∀ db,
     Forall (λ b, is_Some (BookDB.year b)) (books db) →
     ∃ s,
       get_statistics db = Ok s
       ∧ total_books s = length (books db)
       ∧ (∀ a, books_by_author s !! a
               = counted (length (List.filter
                                    (λ b, bool_decide (BookDB.author b = a))
                                    (books db))))
       ∧ sum_values (books_by_author s) = total_books s
       ∧ (∀ c, books_by_century s !! (str_of_int c ++ py " век")
               = counted (length (List.filter
                                    (λ b, match BookDB.year b with
                                          | Some y => bool_decide (y / 100 + 1 = c)
                                          | None => false
                                          end)
                                    (books db))))
       ∧ (∀ k, is_Some (books_by_century s !! k) →
               ∃ c, k = str_of_int c ++ py " век")
       ∧ sum_values (books_by_century s) = total_books s)
  ∧ (∀ db,
       map BookDB.year (books db) = [Some 1869; Some 1866; Some 1833] →
       ∃ s,
         get_statistics db = Ok s
         ∧ total_books s = 3%nat
         ∧ books_by_century s = {[ py "19 век" := 3%nat ]}
         ∧ sum_values (books_by_author s) = 3%nat).
Proof.
  assert (Hgen : ∀ db,
    Forall (λ b, is_Some (BookDB.year b)) (books db) →
    get_statistics db
    = Ok {| total_books := length (books db);
            books_by_author := Counter (map BookDB.author (books db));
            books_by_century :=
              map_fold (λ century count d, <[century_label century := count]> d)
                ∅ (Counter (map (λ book, century (default 0 (BookDB.year book)))
                              (books db))) |}).
  { intros db Hyears. unfold get_statistics. by rewrite mapM_century. }
  split.
  - intros db Hyears. eexists. split; [by apply Hgen|]. simpl.
    destruct (century_labels_lookup
                (Counter (map (λ book, century (default 0 (BookDB.year book)))
                            (books db)))) as (Hlook & Hkeys & Hsum).
    split_and!; try done.
    + intros a. apply Counter_lookup.
    + by rewrite sum_values_Counter, length_map.
    + intros c. fold (century_label c). rewrite Hlook, Counter_lookup.
      do 2 f_equal.
      apply filter_ext_in. intros b Hb%list_elem_of_In.
      rewrite Forall_forall in Hyears. destruct (Hyears b Hb) as [y Hy].
      rewrite Hy. reflexivity.
    + by rewrite Hsum, sum_values_Counter, length_map.
  - intros db Hyears.
    assert (Hall : Forall (λ b, is_Some (BookDB.year b)) (books db)).
    { destruct (books db) as [|b1 [|b2 [|b3 [|]]]]; try discriminate.
      injection Hyears as H1 H2 H3. repeat constructor; by eexists. }
    assert (Hlen : length (books db) = 3%nat).
    { by rewrite <- (length_map BookDB.year), Hyears. }
    eexists. split; [by apply Hgen|]. simpl. split_and!.
    + done.
    + assert (map (λ book, century (default 0 (BookDB.year book))) (books db)
              = [19; 19; 19]) as ->.
      { rewrite <- (map_map BookDB.year (λ y, century (default 0 y))).
        by rewrite Hyears. }
      vm_compute. reflexivity.
    + by rewrite sum_values_Counter, length_map.
Qed.

Lemma get_statistics_counts_witness :
  ∃ s,
    get_statistics seeded = Ok s
    ∧ total_books s = 3%nat
    ∧ books_by_author s !! Some (py "Лев Толстой") = Some 1%nat
    ∧ books_by_century s !! py "19 век" = Some 3%nat.
Proof.
  destruct get_statistics_counts as (Hgen & _).
  destruct (Hgen seeded) as (s & Hs & Htotal & Hauthor & _ & Hcentury & _).
  - repeat constructor; by eexists.
  - exists s. split_and!; [done | by rewrite Htotal | | ].
    + by rewrite Hauthor.
    + change (py "19 век") with (str_of_int 19 ++ py " век").
      by rewrite Hcentury.
Defined.

(** C6: [get_statistics] does not answer on every store.  On the seeded
    store, whose years are 1869, 1866 and 1833, it returns [total_books] 3,
    one entry per author, and the single century key of 19 with count 3.
    But a partial update of record 1 whose payload holds an explicit [null]
    for the year is accepted (as the explicit [null] for the title is) and
    committed; the ids of the store are still unique, it still has three
    records, and on it the floor division of [get_statistics] meets a year
    that is [None]: the handler, and the route, end in a server error. *)
Theorem get_statistics_null_year :
  get_statistics seeded
  = Ok {| total_books := 3;
          books_by_author :=
            {[ Some (py "Лев Толстой") := 1%nat;
               Some (py "Федор Достоевский") := 1%nat;
               Some (py "Александр Пушкин") := 1%nat ]};
          books_by_century := {[ py "19 век" := 3%nat ]} |}
  ∧ validate_BookUpdate cfg0 null_year_body
    = Ok (BookUpdate.mk None None (Some None) None)
  ∧ (∃ db',
       snd (app cfg0 (Some (py "secret")) (PATCH_book 1 null_year_body) seeded)
       = db'
       ∧ wf db'
       ∧ length (books db') = 3%nat
       ∧ BookDB.year <$> first_by_id 1 db' = Some None
       ∧ get_statistics db' = Raise ServerError
       ∧ app cfg0 None GET_stats_books db' = (Failure ServerError, db')).
Proof.
  split; [vm_compute; reflexivity|]. split; [reflexivity|].
  eexists. split; [reflexivity|]. split_and!.
  - change (wf (commit_update (setattr war_and_peace (set_year None)) seeded)).
    apply (wf_commit_update 1 seeded war_and_peace);
      [apply wf_seeded | reflexivity..].
  - reflexivity.
  - reflexivity.
  - vm_compute. reflexivity.
  - vm_compute. reflexivity.
Qed.

(* ===================================================================== *)
(** ** The author filter *)
(* ===================================================================== *)

Lemma like_any_cons p x s :
  like (PAny :: p) (x :: s) = like p (x :: s) || like (PAny :: p) s.
Proof. reflexivity. Qed.

Lemma like_any p s :
  like (PAny :: p) s = true ↔ ∃ k, like p (drop k s) = true.
Proof.
  induction s as [|x s IH].
  - simpl. rewrite orb_false_r. split; [by exists 0%nat|].
    intros [k Hk]. by rewrite drop_nil in Hk.
  - rewrite like_any_cons, orb_true_iff, IH. split.
    + intros [Hhere|[k Hk]]; [by exists 0%nat | by exists (S k)].
    + intros [[|k] Hk]; [by left | right; by exists k].
Qed.

Lemma like_lits t p s :
  like (map PLit t ++ p) s = true ↔
  ∃ s1 s2, s = s1 ++ s2 ∧ map lower s1 = map lower t ∧ like p s2 = true.
Proof.
  revert s. induction t as [|c t IH]; intros s; simpl.
  - split.
    + intros Hp. by exists [], s.
    + intros (s1 & s2 & -> & Hs1 & Hp). by destruct s1.
  - destruct s as [|d s].
    + split; [done|]. intros (s1 & s2 & Hs & Hs1 & _). by destruct s1.
    + rewrite andb_true_iff, IH, N.eqb_eq. split.
      * intros (Hcd & s1 & s2 & -> & Hs1 & Hp).
        exists (d :: s1), s2. simpl. by rewrite Hs1, Hcd.
      * intros (s1 & s2 & Hs & Hs1 & Hp). destruct s1 as [|d' s1]; [done|].
        simpl in *. injection Hs as <- ->. injection Hs1 as Hd Hs1.
        split; [done | by exists s1, s2].
Qed.

Lemma like_pattern_wildcard_free t :
  wildcard_free t → like_pattern t = map PLit t.
Proof.
  induction 1 as [|c t [H37 H95] _ IH]; simpl; [done|].
  rewrite IH. f_equal. unfold pat_of_char.
  destruct (N.eqb_spec c 37); [done|]. by destruct (N.eqb_spec c 95).
Qed.

(** With no [%] and no [_] in it, the filter matches the authors that
    contain it, whatever the case of the letters. *)
Lemma ilike_icontains t s :
  wildcard_free t →
  ilike (Some s) (py "%" ++ t ++ py "%") = true ↔ icontains t s.
Proof.
  intros Hfree. unfold ilike, icontains.
  assert (like_pattern (py "%" ++ t ++ py "%") = PAny :: map PLit t ++ [PAny])
    as ->.
  { rewrite <- like_pattern_wildcard_free by done.
    unfold like_pattern. by rewrite !map_app. }
  rewrite like_any. split.
  - intros (k & (s1 & s2 & Hs & Hs1 & _)%like_lits).
    exists (map lower (take k s)), (map lower s2).
    rewrite <- Hs1, <- !map_app, <- Hs. by rewrite take_drop.
  - intros (pre & post & Hs). exists (length pre). apply like_lits.
    exists (take (length t) (drop (length pre) s)),
           (drop (length t) (drop (length pre) s)).
    split; [by rewrite take_drop|]. split.
    + change (map lower ?l) with (lower <$> l).
      rewrite fmap_take, fmap_drop.
      change (lower <$> ?l) with (map lower l). rewrite Hs.
      rewrite drop_app_length.
      rewrite <- (length_map lower t). by rewrite take_app_length.
    + apply like_any. exists (length (drop (length t) (drop (length pre) s))).
      by rewrite drop_all.
Qed.

(** The records that [get_books] returns for an author filter with no [%]
    and no [_], and no year filter: those whose author contains the filter
    as a case-insensitive substring, in the store's order, then one page. *)
Lemma get_books_author_icontains skip limit t db :
  wildcard_free t → t ≠ [] →
  ∃ matches,
    get_books skip limit (Some t) None None db
    = take limit (drop skip (List.filter matches (books db)))
    ∧ ∀ b, matches b = true ↔ ∃ a, BookDB.author b = Some a ∧ icontains t a.
Proof.
  intros Hfree Hne.
  exists (λ b, ilike (BookDB.author b) (py "%" ++ t ++ py "%")). split.
  - unfold get_books. by destruct t.
  - intros b. destruct (BookDB.author b) as [a|].
    + rewrite ilike_icontains by done. split; [eauto|]. by intros (? & [= <-] & ?).
    + split; [done | by intros (? & ? & _)].
Qed.

Example get_books_tolstoy :
  get_books 0 10 (Some (py "толст")) None None seeded = [war_and_peace].
Proof. vm_compute. reflexivity. Qed.

(** C7: the author filter of [get_books] is put into a [LIKE] pattern as
    it is, so a [%] or a [_] in it is a wildcard.  On the seeded store the
    filter [_] returns every record, although no author holds that
    character; so does [%]; and [л_в] returns the record of an author that
    does not contain it.  A filter without the two characters does select
    by case-insensitive substring: [толст] returns the record of
    [Лев Толстой]. *)
Theorem get_books_author_wildcard :
  get_books 0 10 (Some (py "_")) None None seeded = books seeded
  ∧ get_books 0 10 (Some (py "%")) None None seeded = books seeded
  ∧ Forall (λ b, ∀ a, BookDB.author b = Some a → ¬ icontains (py "_") a)
      (books seeded)
  ∧ get_books 0 10 (Some (py "л_в")) None None seeded = [war_and_peace]
  ∧ ¬ icontains (py "л_в") (py "Лев Толстой")
  ∧ get_books 0 10 (Some (py "толст")) None None seeded = [war_and_peace].
Proof.
  assert (Hno : ∀ t a, (95%N ∈ map lower t) → (95%N ∉ map lower a) →
                       ¬ icontains t a).
  { intros t a Ht Ha (pre & post & Heq). apply Ha. rewrite Heq.
    apply elem_of_app. right. apply elem_of_app. by left. }
  assert (Hin : ∀ l : str, bool_decide (95%N ∈ l) = true → 95%N ∈ l).
  { intros l. apply bool_decide_eq_true_1. }
  assert (Hout : ∀ l : str, bool_decide (95%N ∈ l) = false → 95%N ∉ l).
  { intros l. apply bool_decide_eq_false_1. }
  split; [vm_compute; reflexivity|].
  split; [vm_compute; reflexivity|].
  split.
  { unfold seeded, init_database, initial_books. simpl.
    repeat apply Forall_cons_2; [..|apply Forall_nil_2]; simpl;
      intros a [= <-]; (apply Hno; [apply Hin | apply Hout]);
      vm_compute; reflexivity. }
  split; [vm_compute; reflexivity|].
  split; [|vm_compute; reflexivity].
  apply Hno; [apply Hin | apply Hout]; vm_compute; reflexivity.
Qed.



(* ===================================================================== *)
(** ** The field constraints of persisted records *)
(* ===================================================================== *)

Lemma Book_constraints_mono y y' b :
  y ≤ y' → Book_constraints y b → Book_constraints y' b.
Proof.
  intros Hle (Ht & Ha & (yr & Hyr & Hrange) & Hi).
  split_and!; try done. exists yr. split; [done | lia].
Qed.

Lemma Book_constraints_updated_row cfg y body b k :
  validate_Book cfg body = Ok b → year_le cfg ≤ y →
  Book_constraints y (updated_row k b).
Proof.
  intros (_ & Ht & _ & Ha & _ & Hy & _ & Hi & _)%validate_Book_Ok Hle.
  unfold updated_row. split_and!; simpl; [eauto..| |done].
  exists (Book.year b). split; [done | lia].
Qed.

Lemma validate_BookUpdate_values cfg body u :
  validate_BookUpdate cfg body = Ok u →
  (∀ s, Body.title body = Value s → len_between 1 200 s)
  ∧ (∀ s, Body.author body = Value s → len_between 1 100 s)
  ∧ (∀ n, Body.year body = Value n → 1000 ≤ n ≤ year_le cfg)
  ∧ (∀ s, Body.isbn body = Value s → len_between 10 13 s).
Proof.
  unfold validate_BookUpdate.
  destruct (given (Body.title body) _) as [t|] eqn:Et; [|discriminate].
  destruct (given (Body.author body) _) as [a|] eqn:Ea; [|discriminate].
  destruct (given (Body.year body) _) as [y|] eqn:Ey; [|discriminate].
  destruct (given (Body.isbn body) _) as [i|] eqn:Ei; [|discriminate].
  intros _. split_and!; intros x Hx.
  - rewrite Hx in Et. simpl in Et.
    destruct (check_len 1 200 x) eqn:E; [|done].
    by apply check_len_Valid in E as [_ ?].
  - rewrite Hx in Ea. simpl in Ea.
    destruct (check_len 1 100 x) eqn:E; [|done].
    by apply check_len_Valid in E as [_ ?].
  - rewrite Hx in Ey. simpl in Ey.
    destruct (check_range 1000 (year_le cfg) x) eqn:E; [|done].
    by apply check_range_Valid in E as [_ ?].
  - rewrite Hx in Ei. simpl in Ei.
    destruct (check_len 10 13 x) eqn:E; [|done].
    by apply check_len_Valid in E as [_ ?].
Qed.

Lemma store_valid_commit_update y db book :
  store_valid y db → Book_constraints y book →
  store_valid y (commit_update book db).
Proof.
  unfold store_valid, commit_update. simpl. intros Hdb Hbook.
  induction Hdb as [|b l Hb _ IH]; simpl; [done|].
  apply Forall_cons_2; [|done]. by destruct (BookDB.id b =? BookDB.id book).
Qed.

Lemma store_valid_delete y db book :
  store_valid y db → store_valid y (delete book db).
Proof.
  unfold store_valid, delete. simpl. intros Hdb.
  induction Hdb as [|b l Hb _ IH]; simpl; [done|].
  destruct (negb _); [by apply Forall_cons_2 | done].
Qed.

(** Every request but a partial update with an explicit [null] for a
    required field keeps the records of the store within the field
    constraints. *)
Lemma app_preserves_store_valid cfg y credential req db :
  year_le cfg ≤ y → no_null_patch req → store_valid y db →
  store_valid y (snd (app cfg credential req db)).
Proof.
  intros Hle Hreq Hdb.
  destruct req as [| |body|book_id body|book_id body| |book_id];
    unfold app; try done.
  - destruct (verify_api_key cfg credential); [|done].
    destruct (validate_Book cfg body) as [book|] eqn:Hbody; [|done].
    destruct (create_book_added book db) as [-> Hbooks].
    change (store_valid y (snd (add (model_dump_exclude_id book) db))).
    unfold store_valid. rewrite Hbooks.
    apply Forall_app. split; [done|]. apply Forall_singleton.
    by apply (Book_constraints_updated_row cfg y body book (next_id db)).
  - destruct (verify_api_key cfg credential); [|done].
    destruct (validate_Book cfg body) as [book|] eqn:Hbody; [|done].
    destruct (first_by_id book_id db) as [old|] eqn:Hfind.
    + rewrite (update_book_found _ _ _ old) by done. simpl.
      apply store_valid_commit_update; [done|].
      by apply (Book_constraints_updated_row cfg y body).
    + unfold update_book. by rewrite Hfind.
  - destruct (verify_api_key cfg credential); [|done].
    destruct (validate_BookUpdate cfg body) as [u|] eqn:Hbody; [|done].
    unfold partial_update_book.
    destruct (first_by_id book_id db) as [old|] eqn:Hfind; [|done]. simpl.
    apply store_valid_commit_update; [done|].
    rewrite foldl_setattr_exclude_unset.
    apply first_by_id_Some in Hfind as [Hold _].
    unfold store_valid in Hdb. rewrite Forall_forall in Hdb.
    destruct (Hdb old Hold) as ((t & Ht & Hlt) & (au & Ha & Hla)
                                & (yr & Hyr & Hry) & Hi).
    pose proof (validate_BookUpdate_values cfg body u Hbody)
      as (Vt & Va & Vy & Vi).
    apply validate_BookUpdate_Ok in Hbody as (Pt & Pa & Py & Pi).
    destruct Hreq as (Nt & Na & Ny).
    split_and!; simpl.
    + rewrite Pt. destruct (Body.title body) as [| |x]; simpl; [eauto|done|eauto].
    + rewrite Pa. destruct (Body.author body) as [| |x]; simpl; [eauto|done|eauto].
    + rewrite Py. destruct (Body.year body) as [| |x]; simpl; [eauto|done|].
      exists x. split; [done|]. specialize (Vy x eq_refl). lia.
    + rewrite Pi. destruct (Body.isbn body) as [| |x]; simpl; [done|done|].
      intros i [= <-]. by apply Vi.
  - destruct (verify_api_key cfg credential); [|done].
    unfold delete_book. destruct (first_by_id book_id db); [|done]. simpl.
    by apply store_valid_delete.
Qed.

(** Every request keeps the primary key: unique ids, all below the next. *)
Lemma app_preserves_wf cfg credential req db :
  wf db → wf (snd (app cfg credential req db)).
Proof.
  intros Hwf.
  destruct req as [| |body|book_id body|book_id body| |book_id];
    unfold app; try done.
  - destruct (verify_api_key cfg credential); [|done].
    destruct (validate_Book cfg body) as [book|]; [|done].
    destruct (create_book_added book db) as [-> _].
    change (wf (snd (add (model_dump_exclude_id book) db))). by apply wf_add.
  - destruct (verify_api_key cfg credential); [|done].
    destruct (validate_Book cfg body) as [book|]; [|done].
    destruct (first_by_id book_id db) as [old|] eqn:Hfind.
    + rewrite (update_book_found _ _ _ old) by done. simpl.
      by apply (wf_commit_update book_id db old).
    + unfold update_book. by rewrite Hfind.
  - destruct (verify_api_key cfg credential); [|done].
    destruct (validate_BookUpdate cfg body) as [u|]; [|done].
    unfold partial_update_book.
    destruct (first_by_id book_id db) as [old|] eqn:Hfind; [|done]. simpl.
    apply (wf_commit_update book_id db old); [done..|].
    rewrite foldl_setattr_id. by apply first_by_id_Some in Hfind as [_ ?].
  - destruct (verify_api_key cfg credential); [|done].
    unfold delete_book. destruct (first_by_id book_id db); [|done]. simpl.
    by apply wf_delete.
Qed.

Lemma store_valid_seeded : store_valid 2024 seeded.
Proof.
  unfold store_valid, seeded, init_database, initial_books. simpl.
  repeat apply Forall_cons_2; [..|apply Forall_nil_2];
    (split_and!; simpl;
     [ eexists; split; [reflexivity | unfold len_between; vm_compute; lia]
     | eexists; split; [reflexivity | unfold len_between; vm_compute; lia]
     | eexists; split; [reflexivity | lia]
     | intros i [= <-]; unfold len_between; vm_compute; lia ]).
Qed.

(** C1: the field constraints are not kept by every operation.  The
    seeded store satisfies them.  A partial update of record 1 whose
    payload holds an explicit [null] for the title is accepted by
    [BookUpdate] (whose fields are optional, so [null] is a value of each),
    [partial_update_book] sets the title to [None] and commits; the answer
    is a server error, since the record no longer fits the response model
    [Book], but the store now holds record 1 without a title, and in no
    year does it satisfy the constraints. *)
Theorem partial_update_null_title :
  store_valid 2024 seeded
  ∧ validate_BookUpdate cfg0 null_title_body
    = Ok (BookUpdate.mk (Some None) None None None)
  ∧ (∃ db',
       app cfg0 (Some (py "secret")) (PATCH_book 1 null_title_body) seeded
       = (Failure ServerError, db')
       ∧ first_by_id 1 db'
         = Some (BookDB.mk 1 None (Some (py "Лев Толстой")) (Some 1869)
                   (Some (py "9785170987654")))
       ∧ (∀ y, ¬ store_valid y db')
       ∧ app cfg0 None (GET_book 1) db' = (Failure ServerError, db')).
Proof.
  split; [apply store_valid_seeded|]. split; [reflexivity|].
  eexists. split; [vm_compute; reflexivity|].
  split; [vm_compute; reflexivity|]. split; [|vm_compute; reflexivity].
  intros y Hvalid. unfold store_valid in Hvalid.
  apply Forall_cons_1 in Hvalid as [((t & Ht & _) & _) _]. discriminate Ht.
Qed.

(* ===================================================================== *)
(** ** The models, the response model and the century *)
(* ===================================================================== *)

(** X1: [Book] accepts a body exactly when it holds a title of 1 to 200
    characters, an author of 1 to 100, a year from 1000 to the bound taken
    at import, and an ISBN that is left out, [null] or of 10 to 13
    characters; the instance then holds these values, and the id of the
    body if it has one.  A body it does not accept is a [ValidationError]
    with at least one entry. *)
Theorem validate_Book_accepts_iff cfg body :
  ((∃ b, validate_Book cfg body = Ok b) ↔
   (∃ t, Body.title body = Value t ∧ len_between 1 200 t)
   ∧ (∃ a, Body.author body = Value a ∧ len_between 1 100 a)
   ∧ (∃ y, Body.year body = Value y ∧ 1000 ≤ y ≤ year_le cfg)
   ∧ (∀ i, Body.isbn body = Value i → len_between 10 13 i))
  ∧ (∀ b, validate_Book cfg body = Ok b →
       Body.title body = Value (Book.title b)
       ∧ Body.author body = Value (Book.author b)
       ∧ Body.year body = Value (Book.year b)
       ∧ Book.isbn b = patched None (Body.isbn body)
       ∧ Book.id b = patched None (Body.id body))
  ∧ (∀ e, validate_Book cfg body = Raise e →
       ∃ errors, e = ValidationError errors ∧ errors ≠ []).
Proof.
  split_and!.
  - split.
    + intros (b & (Ht & Hlt & Ha & Hla & Hy & Hry & Hi & Hli & _)%validate_Book_Ok).
      split_and!; [eauto..|].
      intros i Hbi. apply Hli. by rewrite Hi, Hbi.
    + intros ((t & Ht & Hlt) & (a & Ha & Hla) & (y & Hy & Hry) & Hi).
      unfold validate_Book. rewrite Ht, Ha, Hy. simpl.
      assert (check_len 1 200 t = Valid t) as -> by by apply check_len_Valid.
      assert (check_len 1 100 a = Valid a) as -> by by apply check_len_Valid.
      assert (check_range 1000 (year_le cfg) y = Valid y) as ->
        by by apply check_range_Valid.
      destruct (Body.isbn body) as [| |i]; simpl; [eauto..|].
      assert (check_len 10 13 i = Valid i) as ->; [|eauto].
      apply check_len_Valid. split; [done | by apply Hi].
  - intros b (Ht & _ & Ha & _ & Hy & _ & Hi & _ & Hid)%validate_Book_Ok. done.
  - intros e. unfold validate_Book.
    destruct (required string_type (check_len 1 200) (Body.title body)),
      (required string_type (check_len 1 100) (Body.author body)),
      (required int_type (check_range 1000 (year_le cfg)) (Body.year body)),
      (optional (check_len 10 13) (Body.isbn body));
      intros [= <-]; eexists; (split; [reflexivity|]); simpl;
      try discriminate; by destruct (errors_of _ _).
Qed.

(** X2: [BookUpdate] accepts a body exactly when each of its keys that
    holds a value keeps the bounds of its field; a key that is left out or
    [null] is never a reason to refuse it. *)
Theorem validate_BookUpdate_accepts_iff cfg body :
  (∃ u, validate_BookUpdate cfg body = Ok u) ↔
  (∀ t, Body.title body = Value t → len_between 1 200 t)
  ∧ (∀ a, Body.author body = Value a → len_between 1 100 a)
  ∧ (∀ y, Body.year body = Value y → 1000 ≤ y ≤ year_le cfg)
  ∧ (∀ i, Body.isbn body = Value i → len_between 10 13 i).
Proof.
  split.
  - intros (u & Hu). by apply (validate_BookUpdate_values cfg body u).
  - intros (Ht & Ha & Hy & Hi). unfold validate_BookUpdate.
    assert (∃ t, given (Body.title body)
                   (optional (check_len 1 200) (Body.title body)) = Valid t)
      as [t ->].
    { destruct (Body.title body) as [| |x]; simpl; [eauto..|].
      assert (check_len 1 200 x = Valid x) as ->; [|eauto].
      apply check_len_Valid. split; [done | by apply Ht]. }
    assert (∃ a, given (Body.author body)
                   (optional (check_len 1 100) (Body.author body)) = Valid a)
      as [a ->].
    { destruct (Body.author body) as [| |x]; simpl; [eauto..|].
      assert (check_len 1 100 x = Valid x) as ->; [|eauto].
      apply check_len_Valid. split; [done | by apply Ha]. }
    assert (∃ y, given (Body.year body)
                   (optional (check_range 1000 (year_le cfg)) (Body.year body))
                 = Valid y) as [y ->].
    { destruct (Body.year body) as [| |x]; simpl; [eauto..|].
      assert (check_range 1000 (year_le cfg) x = Valid x) as ->; [|eauto].
      apply check_range_Valid. split; [done | by apply Hy]. }
    assert (∃ i, given (Body.isbn body)
                   (optional (check_len 10 13) (Body.isbn body)) = Valid i)
      as [i ->].
    { destruct (Body.isbn body) as [| |x]; simpl; [eauto..|].
      assert (check_len 10 13 x = Valid x) as ->; [|eauto].
      apply check_len_Valid. split; [done | by apply Hi]. }
    eauto.
Qed.

(** X3: a stored record passes the response model exactly when it satisfies
    the field constraints with the year bound taken at import.  So a get by
    id answers [NotFound] exactly when no record has the id, the record
    when it satisfies the constraints, and a server error when it is there
    but does not. *)
Theorem response_model_Book_iff cfg book :
  ((∃ b, response_model_Book cfg book = Ok b)
   ↔ Book_constraints (year_le cfg) book)
  ∧ (∀ credential book_id db,
       (fst (app cfg credential (GET_book book_id) db) = Failure (NotFound book_id)
        ↔ first_by_id book_id db = None)
       ∧ (first_by_id book_id db = Some book →
          Book_constraints (year_le cfg) book →
          ∃ b, app cfg credential (GET_book book_id) db
               = (Success 200 (book_json b), db)
               ∧ Book.id b = Some book_id
               ∧ BookDB.title book = Some (Book.title b)
               ∧ BookDB.author book = Some (Book.author b)
               ∧ BookDB.year book = Some (Book.year b)
               ∧ BookDB.isbn book = Book.isbn b)
       ∧ (first_by_id book_id db = Some book →
          ¬ Book_constraints (year_le cfg) book →
          app cfg credential (GET_book book_id) db = (Failure ServerError, db))).
Proof.
  assert (Hiff : (∃ b, response_model_Book cfg book = Ok b)
                 ↔ Book_constraints (year_le cfg) book).
  { split.
    - intros (b & Hb). unfold response_model_Book in Hb.
      destruct (validate_Book cfg (attributes book)) as [b'|] eqn:Hv; [|done].
      apply validate_Book_Ok in Hv
        as (Ht & Hlt & Ha & Hla & Hy & Hry & Hi & Hli & _).
      unfold attributes, Book_constraints in *. simpl in *.
      destruct (BookDB.title book) as [t|]; [|done].
      destruct (BookDB.author book) as [a|]; [|done].
      destruct (BookDB.year book) as [y|]; [|done].
      injection Ht as ->. injection Ha as ->. injection Hy as ->.
      split_and!; [eauto..|].
      intros i Hbi. apply Hli. by rewrite Hi, Hbi.
    - intros ((t & Ht & Hlt) & (a & Ha & Hla) & (y & Hy & Hry) & Hi).
      eexists. by apply (response_model_Book_Ok cfg book t a y). }
  split; [done|]. intros credential book_id db. split_and!.
  - unfold app, get_book. destruct (first_by_id book_id db) as [b|]; simpl.
    + split; [|done]. unfold as_book.
      destruct (response_model_Book cfg b) as [|e] eqn:E; [done|].
      by apply response_model_Book_Raise in E as ->.
    + done.
  - intros Hfind ((t & Ht & Hlt) & (a & Ha & Hla) & (y & Hy & Hry) & Hi).
    apply first_by_id_Some in Hfind as Hid. destruct Hid as [_ Hid].
    exists (Book.mk (Some (BookDB.id book)) t a y (BookDB.isbn book)).
    unfold app, get_book. rewrite Hfind. simpl. unfold as_book.
    rewrite (response_model_Book_Ok cfg book t a y) by done.
    split_and!; simpl; congruence.
  - intros Hfind Hbad. unfold app, get_book. rewrite Hfind. simpl.
    unfold as_book.
    destruct (response_model_Book cfg book) as [b|e] eqn:E.
    + exfalso. apply Hbad, Hiff. eauto.
    + by apply response_model_Book_Raise in E as ->.
Qed.

(** X4: the century of a year is the [c] with
    [100 * (c - 1) <= year < 100 * c]: the hundred years that end in 99,
    not in 00, so 1900 is in century 20 and 2000 in century 21. *)
Theorem century_bounds year c :
  century year = c ↔ 100 * (c - 1) ≤ year < 100 * c.
Proof.
  unfold century.
  pose proof (Z.div_mod year 100 ltac:(lia)) as Hdiv.
  pose proof (Z.mod_pos_bound year 100 ltac:(lia)) as Hmod.
  revert Hdiv Hmod. generalize (year / 100), (year mod 100). lia.
Qed.

(* ===================================================================== *)
(** ** Listing: filters and pages *)
(* ===================================================================== *)

Lemma filter_filter_andb {A} (f g : A → bool) l :
  List.filter g (List.filter f l) = List.filter (λ x, f x && g x) l.
Proof.
  induction l as [|x l IH]; simpl; [done|].
  destruct (f x); simpl; [|done]. destruct (g x); by rewrite IH.
Qed.

Lemma filter_when {A} (c : bool) (f : A → bool) l :
  (if c then List.filter f l else l)
  = List.filter (λ x, if c then f x else true) l.
Proof.
  destruct c; [done|]. induction l as [|x l IH]; simpl; [done | by rewrite <- IH].
Qed.

Lemma sublist_filter_bool {A} (f : A → bool) l : sublist (List.filter f l) l.
Proof.
  induction l as [|x l IH]; simpl; [constructor|].
  destruct (f x); by constructor.
Qed.

(** [get_books] is one filter by the conjunction of its tests, then a page. *)
Lemma get_books_passes skip limit author year_from year_to db :
  get_books skip limit author year_from year_to db
  = take limit (drop skip (List.filter (passes author year_from year_to) (books db))).
Proof.
  unfold get_books. rewrite !filter_when, !filter_filter_andb.
  do 2 f_equal. apply filter_ext. intros b. unfold passes.
  by rewrite andb_assoc.
Qed.

(** X5: the filters of [get_books] apply together: the result is the page
    of the records that pass every test whose argument is truthy.  Under a
    [year_from] that is not zero every record listed has a year, not below
    it; under a [year_to] that is not zero, a year not above it (a record
    without a year is never listed then); and a record that passes every
    test is listed when the page is large enough. *)
Theorem get_books_conjunctive skip limit author year_from year_to db :
  get_books skip limit author year_from year_to db
  = take limit (drop skip (List.filter (passes author year_from year_to) (books db)))
  ∧ (∀ b lo,
       b ∈ get_books skip limit author (Some lo) year_to db → lo ≠ 0 →
       ∃ y, BookDB.year b = Some y ∧ lo ≤ y)
  ∧ (∀ b hi,
       b ∈ get_books skip limit author year_from (Some hi) db → hi ≠ 0 →
       ∃ y, BookDB.year b = Some y ∧ y ≤ hi)
  ∧ (∀ b,
       b ∈ books db → passes author year_from year_to b = true →
       b ∈ get_books 0 (length (books db)) author year_from year_to db).
Proof.
  assert (Hin : ∀ b yf yt,
    b ∈ get_books skip limit author yf yt db →
    b ∈ books db ∧ passes author yf yt b = true).
  { intros b yf yt. rewrite get_books_passes. intros Hb.
    apply (λ H, elem_of_sublist _ _ _ H (sublist_take _ _)) in Hb.
    apply (λ H, elem_of_sublist _ _ _ H (sublist_drop _ _)) in Hb.
    apply list_elem_of_In, filter_In in Hb as [Hb Hp].
    split; [by apply list_elem_of_In | done]. }
  split_and!.
  - apply get_books_passes.
  - intros b lo Hb Hlo. apply Hin in Hb as [_ Hp]. unfold passes in Hp.
    apply andb_true_iff in Hp as [[_ Hp]%andb_true_iff _].
    unfold truthy_int in Hp. simpl in Hp.
    destruct (Z.eqb_spec lo 0); [done|]. simpl in Hp.
    destruct (BookDB.year b) as [y|]; [|done]. exists y. simpl in Hp.
    split; [done | lia].
  - intros b hi Hb Hhi. apply Hin in Hb as [_ Hp]. unfold passes in Hp.
    apply andb_true_iff in Hp as [_ Hp].
    unfold truthy_int in Hp. simpl in Hp.
    destruct (Z.eqb_spec hi 0); [done|]. simpl in Hp.
    destruct (BookDB.year b) as [y|]; [|done]. exists y. simpl in Hp.
    split; [done | lia].
  - intros b Hb Hp. rewrite get_books_passes, drop_0, take_ge.
    + apply list_elem_of_In, filter_In. split; [by apply list_elem_of_In | done].
    + apply sublist_length, sublist_filter_bool.
Qed.

Lemma get_books_conjunctive_witness :
  ∃ y, BookDB.year war_and_peace = Some y ∧ 1867 ≤ y.
Proof.
  destruct (get_books_conjunctive 0 10 None None None seeded)
    as (_ & Hfrom & _).
  apply (Hfrom war_and_peace 1867); [|done].
  vm_compute. apply list_elem_of_here.
Defined.

(** X6: for a [skip] and a [limit] that are not negative (a negative one
    goes to the store's [offset] or [limit] as it is, and what the store
    does with it is not covered here): a page of [get_books] has at most
    [limit] records, all of them records of the store in the store's order;
    the page after it, put behind it, gives the page of both limits; and
    the list is empty, not an error, on an empty store and when [skip] is
    not below the number of records. *)
Theorem get_books_pages (skip limit limit' : Z) author year_from year_to db :
  0 ≤ skip → 0 ≤ limit → 0 ≤ limit' →
  Z.of_nat (length (get_books (Z.to_nat skip) (Z.to_nat limit) author
                      year_from year_to db)) ≤ limit
  ∧ sublist (get_books (Z.to_nat skip) (Z.to_nat limit) author year_from
               year_to db) (books db)
  ∧ get_books (Z.to_nat skip) (Z.to_nat limit) author year_from year_to db
    ++ get_books (Z.to_nat (skip + limit)) (Z.to_nat limit') author year_from
         year_to db
    = get_books (Z.to_nat skip) (Z.to_nat (limit + limit')) author year_from
        year_to db
  ∧ (books db = [] →
     get_books (Z.to_nat skip) (Z.to_nat limit) author year_from year_to db = [])
  ∧ (Z.of_nat (length (books db)) ≤ skip →
     get_books (Z.to_nat skip) (Z.to_nat limit) author year_from year_to db = []).
Proof.
  intros Hskip Hlimit Hlimit'. rewrite !get_books_passes.
  set (l := List.filter (passes author year_from year_to) (books db)).
  assert (Hsub : sublist l (books db)) by apply sublist_filter_bool.
  split_and!.
  - rewrite length_take. lia.
  - etrans; [apply sublist_take|]. etrans; [apply sublist_drop | done].
  - rewrite !Z2Nat.inj_add by done. rewrite <- drop_drop. apply take_take_drop.
  - intros Hempty. rewrite Hempty in Hsub. apply sublist_nil_r in Hsub.
    rewrite Hsub. by rewrite drop_nil, take_nil.
  - intros Hmany. rewrite drop_ge; [apply take_nil|].
    apply sublist_length in Hsub. lia.
Qed.

Lemma get_books_pages_witness :
  get_books 0 10 None None None empty_db = []
  ∧ get_books 3 10 None None None seeded = []
  ∧ get_books 0 2 None None None seeded ++ get_books 2 5 None None None seeded
    = books seeded.
Proof.
  destruct (get_books_pages 0 10 0 None None None empty_db) as (_ & _ & _ & He & _);
    [lia..|].
  destruct (get_books_pages 3 10 0 None None None seeded) as (_ & _ & _ & _ & Hs);
    [lia..|].
  destruct (get_books_pages 0 2 5 None None None seeded) as (_ & _ & Hcat & _);
    [lia..|].
  split_and!; [by apply He | apply Hs; vm_compute; discriminate | exact Hcat].
Defined.

(** A pattern made of a string matches that string itself, whatever is in
    it: a [%] or [_] of the pattern also matches the character it is. *)
Lemma like_self t p s :
  like p s = true → like (like_pattern t ++ p) (t ++ s) = true.
Proof.
  intros Hp. induction t as [|c t IH]; [done|].
  change (like (pat_of_char c :: (like_pattern t ++ p)) (c :: (t ++ s)) = true).
  unfold pat_of_char. destruct (c =? 37)%N.
  - apply like_any. by exists 1%nat.
  - destruct (c =? 95)%N; [exact IH|].
    change (((lower c =? lower c)%N && like (like_pattern t ++ p) (t ++ s)) = true).
    by rewrite N.eqb_refl.
Qed.

(** X16: under an author filter that is not empty (and holds no backslash,
    which some stores read as an escape), [get_books] never leaves out a
    record whose author contains the filter as it was typed: with no year
    filter, and a page that covers the table, every such record of the
    store is listed, also when the filter holds a [%] or a [_].  A record
    without an author is never listed under an author filter. *)
Theorem get_books_author_verbatim t db :
  t ≠ [] → 92%N ∉ t →
  (∀ b pre post,
     b ∈ books db → BookDB.author b = Some (pre ++ t ++ post) →
     b ∈ get_books 0 (length (books db)) (Some t) None None db)
  ∧ (∀ skip limit year_from year_to b,
       b ∈ get_books skip limit (Some t) year_from year_to db →
       BookDB.author b ≠ None).
Proof.
  intros Hne _.
  assert (Htruthy : truthy_str (Some t) = true) by by destruct t.
  split.
  - intros b pre post Hb Hauthor. rewrite get_books_passes, drop_0, take_ge.
    + apply list_elem_of_In, filter_In. split; [by apply list_elem_of_In|].
      unfold passes. rewrite Htruthy, Hauthor. simpl.
      rewrite !andb_true_r. unfold like_pattern. rewrite map_app.
      change (map pat_of_char (py "%")) with [PAny]. simpl app.
      apply like_any. exists (length pre). rewrite drop_app_length.
      apply (like_self t [PAny] post). apply like_any. exists (length post).
      by rewrite drop_all.
    + apply sublist_length, sublist_filter_bool.
  - intros skip limit year_from year_to b Hb Hnone.
    rewrite get_books_passes in Hb.
    apply (λ H, elem_of_sublist _ _ _ H (sublist_take _ _)) in Hb.
    apply (λ H, elem_of_sublist _ _ _ H (sublist_drop _ _)) in Hb.
    apply list_elem_of_In, filter_In in Hb as [_ Hp].
    unfold passes in Hp. rewrite Htruthy, Hnone in Hp. done.
Qed.

Lemma get_books_author_verbatim_witness :
  war_and_peace ∈ get_books 0 3 (Some (py "Толст")) None None seeded.
Proof.
  destruct (get_books_author_verbatim (py "Толст") seeded) as [Hin _].
  - vm_compute. discriminate.
  - apply (bool_decide_eq_false_1 _). vm_compute. reflexivity.
  - apply (Hin war_and_peace (py "Лев ") (py "ой")).
    + vm_compute. apply list_elem_of_here.
    + reflexivity.
Defined.

(* ===================================================================== *)
(** ** Statistics: failure and the empty store *)
(* ===================================================================== *)

(** X7: [get_statistics] fails exactly when some record has no year (the
    floor division is then an unhandled exception, a server error), and
    answers otherwise; on a store without records the total is 0 and both
    mappings are empty. *)
Theorem get_statistics_fails_iff db :
  (get_statistics db = Raise ServerError
   ↔ Exists (λ b, BookDB.year b = None) (books db))
  ∧ ((∃ s, get_statistics db = Ok s)
     ↔ Forall (λ b, is_Some (BookDB.year b)) (books db))
  ∧ (books db = [] →
     get_statistics db
     = Ok {| total_books := 0; books_by_author := ∅; books_by_century := ∅ |}).
Proof.
  assert (Hnone : mapM (λ book, century <$> BookDB.year book) (books db) = None
                  ↔ Exists (λ b, BookDB.year b = None) (books db)).
  { rewrite mapM_None, !Exists_exists.
    split; intros (b & Hb & Hy); exists b; (split; [done|]);
      by apply fmap_None in Hy || apply fmap_None. }
  split_and!.
  - rewrite <- Hnone. unfold get_statistics.
    destruct (mapM _ (books db)); split; done.
  - split.
    + intros (s & Hs). apply Forall_forall. intros b Hb.
      destruct (BookDB.year b) as [y|] eqn:Hy; [by eexists|].
      assert (Hex : Exists (λ b, BookDB.year b = None) (books db)).
      { apply Exists_exists. eauto. }
      apply Hnone in Hex. unfold get_statistics in Hs. by rewrite Hex in Hs.
    + intros Hall. unfold get_statistics. rewrite mapM_century by done. eauto.
  - intros Hempty. unfold get_statistics. rewrite Hempty. reflexivity.
Qed.

Lemma get_statistics_fails_iff_witness :
  get_statistics empty_db
  = Ok {| total_books := 0; books_by_author := ∅; books_by_century := ∅ |}.
Proof.
  destruct (get_statistics_fails_iff empty_db) as (_ & _ & Hempty).
  by apply Hempty.
Defined.

(* ===================================================================== *)
(** ** How the operations compose *)
(* ===================================================================== *)

Lemma partial_update_book_found book_id u db book :
  first_by_id book_id db = Some book →
  partial_update_book book_id u db
  = (Ok (foldl setattr book (model_dump_exclude_unset u)),
     commit_update (foldl setattr book (model_dump_exclude_unset u)) db).
Proof.
  intros Hfind. apply first_by_id_Some in Hfind as Hid. destruct Hid as [_ Hid].
  unfold partial_update_book. rewrite Hfind.
  rewrite (refresh_commit_update book_id db book); [done..|].
  by rewrite foldl_setattr_id.
Qed.

Lemma commit_update_twice r1 r2 db :
  BookDB.id r1 = BookDB.id r2 →
  commit_update r2 (commit_update r1 db) = commit_update r2 db.
Proof.
  intros Hid. unfold commit_update. simpl. f_equal.
  rewrite map_map. apply map_ext. intros b.
  destruct (Z.eqb_spec (BookDB.id b) (BookDB.id r1)) as [Heq|Hne].
  - rewrite Hid, Z.eqb_refl. rewrite Heq, Hid. by rewrite Z.eqb_refl.
  - done.
Qed.

Lemma first_by_id_add_ne k db kwargs :
  k ≠ next_id db →
  first_by_id k (snd (add kwargs db)) = first_by_id k db.
Proof.
  unfold first_by_id, add. simpl. intros Hne.
  induction (books db) as [|r l IH]; simpl.
  - rewrite foldl_setattr_id. simpl.
    by destruct (Z.eqb_spec (next_id db) k).
  - by destruct (BookDB.id r =? k).
Qed.

Lemma respond_as_book_Failure cfg status_code book e :
  respond status_code (as_book cfg) (Ok book) = Failure e → e = ServerError.
Proof.
  unfold respond, as_book.
  destruct (response_model_Book cfg book) as [b|e'] eqn:E; [done|].
  apply response_model_Book_Raise in E as ->. by intros [= <-].
Qed.

(** X8: a create through the route, with the credential and an accepted
    body, answers 201 with the payload's fields under the id the store
    chose; a get of that id then answers the same record, whatever the
    credential; every other id is found or not as before, and the new row
    is the last of the table. *)
Theorem create_then_get cfg body book db :
  wf db → validate_Book cfg body = Ok book →
  ∃ created db',
    app cfg (Some (API_KEY cfg)) (POST_books body) db
    = (Success 201 (book_json created), db')
    ∧ created = Book.mk (Some (next_id db)) (Book.title book) (Book.author book)
                  (Book.year book) (Book.isbn book)
    ∧ (∀ credential,
         app cfg credential (GET_book (next_id db)) db'
         = (Success 200 (book_json created), db'))
    ∧ (∀ k, k ≠ next_id db → get_book k db' = get_book k db)
    ∧ books db' = books db ++ [updated_row (next_id db) book]
    ∧ next_id db' = next_id db + 1.
Proof.
  intros Hwf Hbody. pose proof (wf_fresh db Hwf) as Hfresh.
  set (row := updated_row (next_id db) book).
  set (db' := snd (add (model_dump_exclude_id book) db)).
  assert (Hrow : fst (add (model_dump_exclude_id book) db) = row).
  { unfold add. by rewrite foldl_setattr_exclude_id. }
  assert (Hfirst : first_by_id (next_id db) db' = Some row).
  { unfold db'. rewrite first_by_id_add by done. by rewrite Z.eqb_refl, Hrow. }
  assert (Hserve : response_model_Book cfg row
                   = Ok (Book.mk (Some (next_id db)) (Book.title book)
                           (Book.author book) (Book.year book) (Book.isbn book))).
  { apply (validate_Book_Ok cfg) in Hbody
      as (_ & Ht & _ & Ha & _ & Hy & _ & Hi & _).
    by apply (response_model_Book_Ok cfg row). }
  eexists _, db'. split_and!; [|reflexivity|..].
  - unfold app. rewrite verify_api_key_Ok, Hbody.
    destruct (create_book_added book db) as [-> _]. fold db' row.
    unfold refresh. change (BookDB.id row) with (next_id db).
    rewrite Hfirst. simpl default. unfold respond, as_book. by rewrite Hserve.
  - intros credential. unfold app, get_book. rewrite Hfirst.
    unfold respond, as_book. by rewrite Hserve.
  - intros k Hk. unfold get_book, db'. by rewrite first_by_id_add_ne.
  - unfold db'. by destruct (create_book_added book db) as [_ ->].
  - reflexivity.
Qed.

Lemma create_then_get_witness :
  ∃ created db',
    app cfg0 (Some (py "secret")) (POST_books some_body) seeded
    = (Success 201 (book_json created), db')
    ∧ Book.id created = Some 4
    ∧ app cfg0 None (GET_book 4) db' = (Success 200 (book_json created), db').
Proof.
  destruct (create_then_get cfg0 some_body some_book seeded wf_seeded eq_refl)
    as (created & db' & Hpost & -> & Hget & _).
  eexists _, db'. split_and!; [exact Hpost | reflexivity | apply Hget].
Defined.

(** X9: of two full updates of a record the later one decides: the second
    gives the record and the store that it gives alone, whatever full or
    partial update came before it; so a full update done twice is the same
    as done once. *)
Theorem update_book_last_wins book_id earlier later book_update db book :
  first_by_id book_id db = Some book →
  update_book book_id later (snd (update_book book_id earlier db))
  = update_book book_id later db
  ∧ update_book book_id later (snd (partial_update_book book_id book_update db))
    = update_book book_id later db
  ∧ update_book book_id later (snd (update_book book_id later db))
    = update_book book_id later db.
Proof.
  intros Hfind. apply first_by_id_Some in Hfind as Hid. destruct Hid as [_ Hid].
  assert (Hafter : ∀ r, BookDB.id r = book_id →
    update_book book_id later (commit_update r db) = update_book book_id later db).
  { intros r Hr.
    rewrite (update_book_found book_id later (commit_update r db) r)
      by by apply (first_by_id_commit_update book_id db book).
    rewrite (update_book_found book_id later db book) by done.
    by rewrite commit_update_twice. }
  assert (Hfull : ∀ e,
    update_book book_id later (snd (update_book book_id e db))
    = update_book book_id later db).
  { intros e. rewrite (update_book_found book_id e db book) by done.
    by apply Hafter. }
  split_and!; [apply Hfull | | apply Hfull].
  rewrite (partial_update_book_found book_id book_update db book) by done.
  apply Hafter. by rewrite foldl_setattr_id.
Qed.

Lemma update_book_last_wins_witness :
  update_book 1 some_book (snd (partial_update_book 1 retitle seeded))
  = update_book 1 some_book seeded.
Proof.
  destruct (update_book_last_wins 1 some_book some_book retitle seeded
              war_and_peace eq_refl) as (_ & H & _).
  exact H.
Defined.

(** X10: two partial updates of a record, one after the other, are the
    partial update by both payloads together, the later payload deciding
    the fields that both hold; so a partial update done twice is the same
    as done once. *)
Theorem partial_update_book_merge book_id earlier later db book :
  first_by_id book_id db = Some book →
  partial_update_book book_id later (snd (partial_update_book book_id earlier db))
  = partial_update_book book_id (merge_update later earlier) db
  ∧ partial_update_book book_id later (snd (partial_update_book book_id later db))
    = partial_update_book book_id later db.
Proof.
  intros Hfind. apply first_by_id_Some in Hfind as Hid. destruct Hid as [_ Hid].
  assert (Hmerge : ∀ u1 u2,
    partial_update_book book_id u2 (snd (partial_update_book book_id u1 db))
    = partial_update_book book_id (merge_update u2 u1) db).
  { intros u1 u2.
    rewrite (partial_update_book_found book_id u1 db book) by done.
    cbn [snd].
    set (book1 := foldl setattr book (model_dump_exclude_unset u1)).
    assert (Hid1 : BookDB.id book1 = book_id) by by (unfold book1; rewrite foldl_setattr_id).
    rewrite (partial_update_book_found book_id u2 (commit_update book1 db) book1)
      by by apply (first_by_id_commit_update book_id db book).
    rewrite (partial_update_book_found book_id (merge_update u2 u1) db book)
      by done.
    assert (Hrow : foldl setattr book1 (model_dump_exclude_unset u2)
                   = foldl setattr book (model_dump_exclude_unset (merge_update u2 u1))).
    { unfold book1. rewrite !foldl_setattr_exclude_unset.
      destruct u1 as [[?|] [?|] [?|] [?|]], u2 as [[?|] [?|] [?|] [?|]];
        reflexivity. }
    rewrite Hrow. rewrite commit_update_twice; [done|].
    by rewrite Hid1, foldl_setattr_id. }
  split; [apply Hmerge|]. rewrite Hmerge. f_equal.
  by destruct later as [[?|] [?|] [?|] [?|]].
Qed.

Lemma partial_update_book_merge_witness :
  partial_update_book 1 retitle (snd (partial_update_book 1 retitle seeded))
  = partial_update_book 1 retitle seeded.
Proof.
  destruct (partial_update_book_merge 1 retitle retitle seeded war_and_peace
              eq_refl) as (_ & H).
  exact H.
Defined.

Lemma NoDup_map_inj {A B} (f : A → B) l x y :
  NoDup (map f l) → x ∈ l → y ∈ l → f x = f y → x = y.
Proof.
  induction l as [|z l IH]; simpl; [by intros _ ?%elem_of_nil|].
  intros [Hz Hl]%NoDup_cons Hx Hy Hf.
  assert (Hin : ∀ w, w ∈ l → f w ∈ map f l).
  { intros w Hw. apply list_elem_of_fmap. eauto. }
  apply elem_of_cons in Hx as [->|Hx], Hy as [->|Hy]; [done| | |by apply IH].
  - exfalso. apply Hz. rewrite Hf. by apply Hin.
  - exfalso. apply Hz. rewrite <- Hf. by apply Hin.
Qed.

Lemma filter_other_ids_length k l book :
  NoDup (map BookDB.id l) →
  List.find (λ b, BookDB.id b =? k) l = Some book →
  S (length (List.filter (λ b, negb (BookDB.id b =? k)) l)) = length l.
Proof.
  induction l as [|r l IH]; simpl; [done|].
  intros [Hr Hl]%NoDup_cons Hfind.
  destruct (Z.eqb_spec (BookDB.id r) k) as [Heq|Hne]; simpl.
  - f_equal. f_equal. rewrite <- (List.filter_true l) at 2.
    apply filter_ext_in. intros b Hb%list_elem_of_In.
    destruct (Z.eqb_spec (BookDB.id b) k) as [Hbk|]; [|done].
    exfalso. apply Hr. rewrite Heq, <- Hbk. apply list_elem_of_fmap. eauto.
  - f_equal. by apply IH.
Qed.

(** X11: with unique ids, [delete_book] on an id of the store removes
    exactly one record, the one with that id: the table is one shorter, the
    other records are all there in their order, a second delete of the id
    fails with [NotFound] and changes nothing, and the ids stay unique. *)
Theorem delete_book_removes_one book_id db book :
  wf db → first_by_id book_id db = Some book →
  ∃ db',
    delete_book book_id db = (Ok (), db')
    ∧ S (length (books db')) = length (books db)
    ∧ sublist (books db') (books db)
    ∧ (∀ b, b ∈ books db' ↔ b ∈ books db ∧ b ≠ book)
    ∧ delete_book book_id db' = (Raise (NotFound book_id), db')
    ∧ wf db'.
Proof.
  intros Hwf Hfind. apply first_by_id_Some in Hfind as Hbook.
  destruct Hbook as [Hin Hid]. exists (delete book db).
  assert (Hgone : first_by_id book_id (delete book db) = None).
  { rewrite <- Hid. apply first_by_id_delete. }
  split_and!.
  - unfold delete_book. by rewrite Hfind.
  - unfold delete. simpl. rewrite Hid.
    apply (filter_other_ids_length book_id (books db) book); [apply Hwf | done].
  - apply sublist_filter_bool.
  - intros b. unfold delete. simpl.
    rewrite list_elem_of_In, filter_In, <- list_elem_of_In. split.
    + intros [Hb Hne]. split; [done|]. intros ->.
      by rewrite Z.eqb_refl in Hne.
    + intros [Hb Hne]. split; [done|].
      destruct (Z.eqb_spec (BookDB.id b) (BookDB.id book)) as [Heq|]; [|done].
      exfalso. apply Hne.
      by apply (NoDup_map_inj BookDB.id (books db)); [apply Hwf|..].
  - unfold delete_book. by rewrite Hgone.
  - by apply wf_delete.
Qed.

Lemma delete_book_removes_one_witness :
  ∃ db', delete_book 2 seeded = (Ok (), db') ∧ length (books db') = 2%nat.
Proof.
  destruct (delete_book_removes_one 2 seeded _ wf_seeded eq_refl)
    as (db' & Hdel & Hlen & _).
  exists db'. split; [done|]. change (length (books seeded)) with 3%nat in Hlen.
  by injection Hlen.
Defined.

(** X12: a request that is answered with an [AuthError], a
    [ValidationError] or a [NotFound] has left the store as it was. *)
Theorem client_errors_leave_store cfg credential req db e :
  fst (app cfg credential req db) = Failure e → e ≠ ServerError →
  snd (app cfg credential req db) = db.
Proof.
  intros Hfail Hne.
  destruct req as [| |body|book_id body|book_id body| |book_id];
    unfold app in *; try done.
  - destruct (verify_api_key cfg credential); [|done].
    destruct (validate_Book cfg body) as [book|]; [|done].
    destruct (create_book_added book db) as [Hc _]. rewrite Hc in Hfail.
    by apply respond_as_book_Failure in Hfail.
  - destruct (verify_api_key cfg credential); [|done].
    destruct (validate_Book cfg body) as [book|]; [|done].
    destruct (first_by_id book_id db) as [old|] eqn:Hfind.
    + rewrite (update_book_found book_id book db old) in Hfail by done.
      by apply respond_as_book_Failure in Hfail.
    + unfold update_book. by rewrite Hfind.
  - destruct (verify_api_key cfg credential); [|done].
    destruct (validate_BookUpdate cfg body) as [u|]; [|done].
    destruct (first_by_id book_id db) as [old|] eqn:Hfind.
    + rewrite (partial_update_book_found book_id u db old) in Hfail by done.
      by apply respond_as_book_Failure in Hfail.
    + unfold partial_update_book. by rewrite Hfind.
  - destruct (verify_api_key cfg credential); [|done].
    unfold delete_book in *. by destruct (first_by_id book_id db).
Qed.

Lemma client_errors_leave_store_witness :
  snd (app cfg0 (Some (py "secret")) (PUT_book 9 some_body) seeded) = seeded.
Proof.
  apply (client_errors_leave_store cfg0 _ _ _ (NotFound 9)); [reflexivity | done].
Defined.

(** X13: whatever requests are served, with whatever credentials, the ids
    of the store stay unique and below the id the store gives next: no
    request changes an id or gives two records the same one. *)
Theorem serve_keeps_ids_unique cfg reqs db :
  wf db → wf (serve cfg reqs db).
Proof.
  unfold serve. revert db. induction reqs as [|[credential req] reqs IH];
    intros db Hwf; simpl; [done|].
  apply IH. by apply app_preserves_wf.
Qed.

Lemma serve_keeps_ids_unique_witness :
  wf (serve cfg0
        [(Some (py "secret"), POST_books some_body);
         (Some (py "secret"), DELETE_book 2);
         (None, GET_stats_books)]
        seeded).
Proof. apply serve_keeps_ids_unique, wf_seeded. Defined.

(** X14: from a store whose records satisfy the field constraints, any
    sequence of requests in which no partial update sends an explicit
    [null] for the title, the author or the year leaves a store whose
    records satisfy them, in the year of the import and in every later
    year. *)
Theorem serve_keeps_constraints cfg y reqs db :
  year_le cfg ≤ y →
  Forall (λ r, no_null_patch (snd r)) reqs →
  store_valid y db →
  store_valid y (serve cfg reqs db).
Proof.
  intros Hle Hreqs. unfold serve. revert db.
  induction Hreqs as [|[credential req] reqs Hreq _ IH]; intros db Hdb; simpl;
    [done|].
  apply IH. by apply app_preserves_store_valid.
Qed.

Lemma serve_keeps_constraints_witness :
  store_valid 2026
    (serve cfg0
       [(Some (py "secret"), POST_books some_body);
        (Some (py "secret"), PATCH_book 1 retitle_body);
        (Some (py "secret"), DELETE_book 2)]
       seeded).
Proof.
  apply serve_keeps_constraints.
  - simpl. lia.
  - repeat constructor; simpl; discriminate.
  - apply (Forall_impl _ _ _ store_valid_seeded). intros b.
    apply Book_constraints_mono. lia.
Defined.

(* ===================================================================== *)
(** ** [init_database] *)
(* ===================================================================== *)

(** X15: [init_database] leaves a store that has a record as it is; into a
    store without records it puts the three initial books, in their order,
    under the next three ids.  Run a second time it changes nothing.  It
    keeps the ids unique, and it keeps the field constraints in any year
    from 1869 on. *)
Theorem init_database_seeds db :
  (books db ≠ [] → init_database db = db)
  ∧ (books db = [] →
     books (init_database db)
     = [ BookDB.mk (next_id db) (Some (py "Война и мир"))
           (Some (py "Лев Толстой")) (Some 1869) (Some (py "9785170987654"));
         BookDB.mk (next_id db + 1) (Some (py "Преступление и наказание"))
           (Some (py "Федор Достоевский")) (Some 1866)
           (Some (py "9785170876543"));
         BookDB.mk (next_id db + 1 + 1) (Some (py "Евгений Онегин"))
           (Some (py "Александр Пушкин")) (Some 1833)
           (Some (py "9785170765432")) ]
     ∧ next_id (init_database db) = next_id db + 1 + 1 + 1)
  ∧ init_database (init_database db) = init_database db
  ∧ (wf db → wf (init_database db))
  ∧ (∀ y, 1869 ≤ y → store_valid y db → store_valid y (init_database db)).
Proof.
  assert (Hfull : books db ≠ [] → init_database db = db).
  { intros Hne. unfold init_database. by destruct (books db). }
  assert (Hempty : books db = [] →
    init_database db
    = {| books :=
           [ BookDB.mk (next_id db) (Some (py "Война и мир"))
               (Some (py "Лев Толстой")) (Some 1869) (Some (py "9785170987654"));
             BookDB.mk (next_id db + 1) (Some (py "Преступление и наказание"))
               (Some (py "Федор Достоевский")) (Some 1866)
               (Some (py "9785170876543"));
             BookDB.mk (next_id db + 1 + 1) (Some (py "Евгений Онегин"))
               (Some (py "Александр Пушкин")) (Some 1833)
               (Some (py "9785170765432")) ];
         next_id := next_id db + 1 + 1 + 1 |}).
  { intros He. destruct db as [l n]. simpl in He. subst l. reflexivity. }
  split_and!.
  - done.
  - intros He. by rewrite Hempty.
  - destruct (decide (books db = [])) as [He|Hne].
    + rewrite (Hempty He). reflexivity.
    + by rewrite !Hfull.
  - apply wf_init_database.
  - intros y Hy Hdb. destruct (decide (books db = [])) as [He|Hne].
    + rewrite (Hempty He). unfold store_valid. simpl.
      repeat apply Forall_cons_2; [..|apply Forall_nil_2];
        (split_and!; simpl;
         [ eexists; split; [reflexivity | unfold len_between; vm_compute; lia]
         | eexists; split; [reflexivity | unfold len_between; vm_compute; lia]
         | eexists; split; [reflexivity | lia]
         | intros i [= <-]; unfold len_between; vm_compute; lia ]).
    + by rewrite Hfull.
Qed.

Lemma init_database_seeds_witness :
  init_database seeded = seeded
  ∧ map BookDB.id (books (init_database empty_db)) = [1; 2; 3].
Proof.
  destruct (init_database_seeds seeded) as (Hfull & _).
  destruct (init_database_seeds empty_db) as (_ & Hempty & _).
  split; [by apply Hfull|].
  destruct (Hempty eq_refl) as [-> _]. reflexivity.
Defined.
